(** * Slash-command palette: trigger detection, key handling, dispatch

    A shallow embedding of the TypeScript sources

    - [sources/hooks/useCommandDetector.ts]
    - [sources/components/CommandPalette.tsx] ([handleKeyPress])
    - [docs/plans/2025-01-03-slash-commands-design.md]
      ([useCommandExecutor], [sessionRPC], the [AgentInput] effect)

    followed by the properties of the command contract. *)

From Stdlib Require Import List ZArith NArith Bool Lia Ascii String.
Import ListNotations.

Set Implicit Arguments.

(* ================================================================== *)
(** * JavaScript primitives used by the sources *)
(* ================================================================== *)

Module JS.

(** A JavaScript string is a finite sequence of UTF-16 code units. *)
Definition code_unit := N.
Definition jsstring := list code_unit.

(** String literals of the sources are ASCII; [js] writes one as code units. *)
Definition js (s : string) : jsstring :=
  map N_of_ascii (list_ascii_of_string s).

(** [a === b] on strings: same length, same code unit at every index. *)
Fixpoint strictEquals (a b : jsstring) : bool :=
  match a, b with
  | [], [] => true
  | x :: a', y :: b' => N.eqb x y && strictEquals a' b'
  | _, _ => false
  end.

(** ECMAScript [WhiteSpace]: TAB, VT, FF, ZWNBSP and the category Zs. *)
Definition isSpaceSeparator (c : code_unit) : bool :=
  (c =? 0x20)%N || (c =? 0xA0)%N || (c =? 0x1680)%N
  || ((0x2000 <=? c)%N && (c <=? 0x200A)%N)
  || (c =? 0x202F)%N || (c =? 0x205F)%N || (c =? 0x3000)%N.

Definition isWhiteSpace (c : code_unit) : bool :=
  (c =? 0x9)%N || (c =? 0xB)%N || (c =? 0xC)%N || (c =? 0xFEFF)%N
  || isSpaceSeparator c.

(** ECMAScript [LineTerminator]: LF, CR, LS, PS. *)
Definition isLineTerminator (c : code_unit) : bool :=
  (c =? 0xA)%N || (c =? 0xD)%N || (c =? 0x2028)%N || (c =? 0x2029)%N.

(** The code units [String.prototype.trim] removes. *)
Definition isTrimmable (c : code_unit) : bool :=
  isWhiteSpace c || isLineTerminator c.

Fixpoint trimStart (s : jsstring) : jsstring :=
  match s with
  | [] => []
  | c :: r => if isTrimmable c then trimStart r else s
  end.

Definition trimEnd (s : jsstring) : jsstring :=
  rev (trimStart (rev s)).

(** [s.trim()]: leading and trailing white space and line terminators
    removed, nothing else touched. *)
Definition trim (s : jsstring) : jsstring :=
  trimEnd (trimStart s).

(** [s.startsWith(p)] (search position 0). *)
Fixpoint startsWith (s p : jsstring) {struct p} : bool :=
  match p, s with
  | [], _ => true
  | _ :: _, [] => false
  | x :: p', y :: s' => N.eqb x y && startsWith s' p'
  end.

(** JavaScript numbers as far as the sources use them: integer-valued
    doubles (array lengths and indices, far below 2^53, with -0 read as 0)
    and [NaN], which [%] produces for a zero divisor. *)
Inductive jsnum : Type :=
| Num (z : Z)
| NaN.

Definition numAdd (a b : jsnum) : jsnum :=
  match a, b with
  | Num x, Num y => Num (x + y)
  | _, _ => NaN
  end.

Definition numSub (a b : jsnum) : jsnum :=
  match a, b with
  | Num x, Num y => Num (x - y)
  | _, _ => NaN
  end.

(** [a % b]: the remainder takes the sign of the dividend; [x % 0] is NaN. *)
Definition numRem (a b : jsnum) : jsnum :=
  match a, b with
  | Num x, Num y => if (y =? 0)%Z then NaN else Num (Z.rem x y)
  | _, _ => NaN
  end.

(** [a > b]: false as soon as one side is NaN. *)
Definition numGt (a b : jsnum) : bool :=
  match a, b with
  | Num x, Num y => (x >? y)%Z
  | _, _ => false
  end.

(** [arr.length]. *)
Definition arrayLength {A : Type} (l : list A) : jsnum :=
  Num (Z.of_nat (List.length l)).

(** [a || b] on strings: the empty string is the only falsy one. *)
Definition orString (a b : jsstring) : jsstring :=
  match a with
  | [] => b
  | _ :: _ => a
  end.

(** [a || b] where [a] may also be [undefined]. *)
Definition orOptString (a : option jsstring) (b : jsstring) : jsstring :=
  match a with
  | Some v => orString v b
  | None => b
  end.

(** Truthiness of a string: every string but the empty one. *)
Definition truthyString (a : jsstring) : bool :=
  match a with
  | [] => false
  | _ :: _ => true
  end.

(** Truthiness of an optional boolean field ([undefined] is falsy). *)
Definition truthyFlag (b : option bool) : bool :=
  match b with
  | Some true => true
  | _ => false
  end.

End JS.

Import JS.

(* ================================================================== *)
(** * sources/hooks/useCommandDetector.ts *)
(* ================================================================== *)

Module Detector.

Record UseCommandDetectorResult : Type := {
  isActive : bool;
  clear : unit -> jsstring
}.

Definition useCommandDetector (text trigger : jsstring)
  : UseCommandDetectorResult :=
  let trimmedText := trim text in
  let isActive := strictEquals trimmedText trigger in
  let clear := fun _ : unit => js "" in
  {| isActive := isActive; clear := clear |}.

End Detector.

Import Detector.

(* ================================================================== *)
(** * sources/components/CommandPalette.tsx *)
(* ================================================================== *)

Module Palette.

(** The [icon] node of an item is presentation only and is left out. *)
Record CommandItem : Type := {
  id : jsstring;
  label : jsstring
}.

(** The data props. The callback props [onSelect] and [onClose] are the
    [OnSelect] and [OnClose] calls below; [maxHeight], [emptyMessage] and
    [emptyIcon] only reach the rendering. *)
Record CommandPaletteProps : Type := {
  visible : bool;
  title : jsstring;
  items : list CommandItem;
  selectedIndex : jsnum
}.

(** What a key handler does to the outside, in program order. *)
Inductive call : Type :=
| PreventDefault
| HapticsLight
| OnSelect (index : jsnum)
| OnClose.

Definition handleSelect (index : jsnum) : list call :=
  [HapticsLight; OnSelect index].

Definition handleKeyPress (props : CommandPaletteProps) (key : jsstring)
  : list call :=
  if negb (visible props) then []
  else if strictEquals key (js "Escape") then
    [OnClose]
  else if strictEquals key (js "ArrowUp") then
    let newIndex :=
      if numGt (selectedIndex props) (Num 0)
      then numSub (selectedIndex props) (Num 1)
      else numSub (arrayLength (items props)) (Num 1) in
    [PreventDefault; OnSelect newIndex]
  else if strictEquals key (js "ArrowDown") then
    let newIndex :=
      numRem (numAdd (selectedIndex props) (Num 1))
             (arrayLength (items props)) in
    [PreventDefault; OnSelect newIndex]
  else if strictEquals key (js "Enter")
          && numGt (arrayLength (items props)) (Num 0) then
    PreventDefault :: handleSelect (selectedIndex props)
  else [].

(** An index that designates an element of [l]. *)
Definition validIndex {A : Type} (l : list A) (i : jsnum) : bool :=
  match i with
  | Num z => (0 <=? z)%Z && (z <? Z.of_nat (List.length l))%Z
  | NaN => false
  end.

End Palette.

(* ================================================================== *)
(** * The command registry (design document, section 1) *)
(* ================================================================== *)

Module Commands.

Inductive CommandType : Type :=
| Rpc
| Message.

(** [customHandler], a closure, is not part of the data. *)
Record SlashCommand : Type := {
  id : jsstring;
  trigger : jsstring;
  name : jsstring;
  description : jsstring;
  icon : option jsstring;
  type : CommandType;
  rpcName : option jsstring;
  requiresSession : option bool
}.

Definition SLASH_COMMANDS : list SlashCommand :=
  [ {| id := js "model";
       trigger := js "/model";
       name := js "Select Model";
       description := js "Change the AI model";
       icon := Some (js "cpu");
       type := Rpc;
       rpcName := Some (js "setModel");
       requiresSession := Some true |} ].

End Commands.

Import Commands.

(* ================================================================== *)
(** * useCommandExecutor and sessionRPC (design document, section 4) *)
(* ================================================================== *)

Module Executor.

(** A thrown value: an [Error] with its [message], or anything else. *)
Inductive thrown : Type :=
| ErrorObject (message : jsstring)
| NonError.

(** [error instanceof Error ? error.message : fallback]. *)
Definition errorMessageOr (error : thrown) (fallback : jsstring) : jsstring :=
  match error with
  | ErrorObject m => m
  | NonError => fallback
  end.

(** How an evaluation (or an awaited promise) ends. *)
Inductive completion (A : Type) : Type :=
| Normal (a : A)
| Throw (e : thrown).

Arguments Normal {A} a.
Arguments Throw {A} e.

(** RPC parameters: a key to value mapping; [undefined] is [None]. *)
Definition Params : Type := list (jsstring * jsstring).

Definition orEmptyParams (params : option Params) : Params :=
  match params with
  | Some p => p
  | None => []
  end.

(** [{ success; result?; message? }]. The payload [result] is never read
    by the dispatcher and is left out; a field that is missing is [None]. *)
Record RpcResult : Type := {
  success : option bool;
  message : option jsstring
}.

(** What actually arrives from the socket: an object, or a malformed
    [undefined]/[null], on which a property read throws a [TypeError]. *)
Inductive wire : Type :=
| Obj (r : RpcResult)
| Nullish.

(** The external RPC channel, [apiSocket.sessionRPC]. *)
Record ApiSocket : Type := {
  socketSessionRPC : jsstring -> option jsstring -> Params -> completion wire
}.

(** The surroundings of one dispatch: what [getApiSyncSocket()] gives
    ([None] for no socket) and the engine's text for a [TypeError]. *)
Record World : Type := {
  getApiSyncSocket : completion (option ApiSocket);
  typeErrorMessage : jsstring
}.

(** Observable steps of a dispatch. [Modal.alert] is always called with the
    single button [{ text: 'OK', style: 'cancel' }]. *)
Inductive event : Type :=
| ModalAlert (title msg : jsstring)
| SetIsExecuting (b : bool)
| SocketSessionRPC (sessionId : jsstring) (method : option jsstring)
                   (params : Params).

(** Effects of the code: a log of events, and a normal or abrupt end. *)
Definition Eff (A : Type) : Type := (list event * completion A)%type.

Definition ret {A : Type} (a : A) : Eff A := ([], Normal a).

Definition throw {A : Type} (e : thrown) : Eff A := ([], Throw e).

Definition emit (e : event) : Eff unit := ([e], Normal tt).

Definition lift {A : Type} (c : completion A) : Eff A := ([], c).

Definition bind {A B : Type} (m : Eff A) (k : A -> Eff B) : Eff B :=
  match m with
  | (t, Normal a) => let (t', r) := k a in (t ++ t', r)
  | (t, Throw e) => (t, Throw e)
  end.

(** [try { m } catch (error) { h error }]. *)
Definition tryCatch {A : Type} (m : Eff A) (h : thrown -> Eff A) : Eff A :=
  match m with
  | (t, Throw e) => let (t', r) := h e in (t ++ t', r)
  | (t, Normal a) => (t, Normal a)
  end.

(** [try { m } finally { f }]: [f] runs either way and only overrides the
    completion of [m] when it throws itself. *)
Definition tryFinally {A : Type} (m : Eff A) (f : Eff unit) : Eff A :=
  match m, f with
  | (t, r), (t', Normal _) => (t ++ t', r)
  | (t, _), (t', Throw e) => (t ++ t', Throw e)
  end.

Notation "x <- m ;; k" := (bind m (fun x => k))
  (at level 61, m at next level, right associativity).
Notation "m ;;; k" := (bind m (fun _ => k))
  (at level 61, right associativity).

(** The call on the channel: logged, then settled by the socket. *)
Definition callSocket (sock : ApiSocket) (sessionId : jsstring)
    (method : option jsstring) (params : Params) : Eff wire :=
  ([SocketSessionRPC sessionId method params],
   socketSessionRPC sock sessionId method params).

Definition sessionRPC (w : World) (sessionId : jsstring)
    (method : option jsstring) (params : option Params) : Eff wire :=
  tryCatch
    (apiSocket <- lift (getApiSyncSocket w) ;;
     match apiSocket with
     | None =>
         ret (Obj {| success := Some false;
                     message := Some (js "Not connected to session") |})
     | Some sock =>
         response <- callSocket sock sessionId method (orEmptyParams params) ;;
         ret response
     end)
    (fun error =>
       ret (Obj {| success := Some false;
                   message := Some (errorMessageOr error
                                      (js "RPC call failed")) |})).

(** [result.success] and [result.message] on what [sessionRPC] returned. *)
Definition readResult (w : World) (result : wire) : Eff RpcResult :=
  match result with
  | Obj r => ret r
  | Nullish => throw (ErrorObject (typeErrorMessage w))
  end.

Section useCommandExecutor.

Variable w : World.
Variable sessionId : jsstring.

Definition executeCommand (command : SlashCommand) (params : option Params)
  : Eff unit :=
  if truthyFlag (requiresSession command) && negb (truthyString sessionId)
  then
    emit (ModalAlert (js "Error") (js "Please start a session first"))
  else
    emit (SetIsExecuting true) ;;;
    tryFinally
      (tryCatch
         (match type command with
          | Rpc =>
              result <- sessionRPC w sessionId (rpcName command) params ;;
              r <- readResult w result ;;
              if negb (truthyFlag (success r)) then
                emit (ModalAlert (js "Error")
                        (orOptString (message r) (js "Command failed")))
              else ret tt
          | Message => ret tt
          end)
         (fun error =>
            emit (ModalAlert (js "Error")
                    (errorMessageOr error (js "Command failed")))))
      (emit (SetIsExecuting false)).

End useCommandExecutor.

(** The calls that reached the channel, the alerts shown, and the value
    of the [isExecuting] state after a run. *)
Definition remoteCalls (t : list event) : list event :=
  filter (fun e => match e with SocketSessionRPC _ _ _ => true | _ => false end) t.

Definition alerts (t : list event) : list (jsstring * jsstring) :=
  flat_map (fun e => match e with ModalAlert a b => [(a, b)] | _ => [] end) t.


End Executor.

(* ================================================================== *)
(** * AgentInput: the command-trigger effect (design document, section 5) *)
(* ================================================================== *)

Module AgentInput.

(** The three pieces of command state the effect sets. *)
Record CommandState : Type := {
  showCommandPalette : bool;
  showAutocomplete : bool;
  filteredCommands : list SlashCommand
}.

(** [registry.filter(cmd => cmd.trigger.startsWith(trimmed))]. *)
Definition matchesOf (registry : list SlashCommand) (trimmed : jsstring)
  : list SlashCommand :=
  filter (fun cmd => startsWith (trigger cmd) trimmed) registry.

(** The body of the effect on [props.value]; the registry is the
    module-level [SLASH_COMMANDS] in the source. *)
Definition detectCommandTriggers (registry : list SlashCommand)
    (value : jsstring) : CommandState :=
  let trimmed := trim value in
  if strictEquals trimmed (js "/") then
    {| showCommandPalette := true;
       showAutocomplete := false;
       filteredCommands := registry |}
  else if startsWith trimmed (js "/") then
    let matches := matchesOf registry trimmed in
    {| showCommandPalette := false;
       showAutocomplete := numGt (arrayLength matches) (Num 0);
       filteredCommands := matches |}
  else
    {| showCommandPalette := false;
       showAutocomplete := false;
       filteredCommands := [] |}.

(** [useCommandExecutor(props.sessionId || '')]. *)
Definition executeCommand (w : Executor.World) (sessionId : option jsstring)
  : SlashCommand -> option Executor.Params -> Executor.Eff unit :=
  Executor.executeCommand w (orOptString sessionId (js "")).

End AgentInput.

(* ================================================================== *)
(** * More JavaScript built-ins, used by the views and the search *)
(* ================================================================== *)

Module JSBuiltins.

(** [a === b] on numbers: [NaN] is equal to nothing, itself included. *)
Definition numStrictEquals (a b : jsnum) : bool :=
  match a, b with
  | Num x, Num y => (x =? y)%Z
  | _, _ => false
  end.

(** [s.includes(q)]: [q] occurs in [s] at some position. *)
Fixpoint includes (s q : jsstring) : bool :=
  startsWith s q
  || match s with
     | [] => false
     | _ :: s' => includes s' q
     end.

(** [arr.map((x, index) => f(x, index))], counting from [index]. *)
Fixpoint mapWithIndex {A B : Type} (f : A -> jsnum -> B) (index : Z)
    (l : list A) : list B :=
  match l with
  | [] => []
  | x :: r => f x (Num index) :: mapWithIndex f (index + 1) r
  end.

(** [a === b] where [b] may be [undefined]: a string never equals it. *)
Definition strictEqualsOpt (a : jsstring) (b : option jsstring) : bool :=
  match b with
  | Some s => strictEquals a s
  | None => false
  end.

End JSBuiltins.

Import JSBuiltins.

(* ================================================================== *)
(** * The searchable palette (design document, section 2) *)
(* ================================================================== *)

Module SearchPalette.

(** [searchQuery] and [filteredCommands], the state of the component. *)
Record SearchState : Type := {
  searchQuery : jsstring;
  filteredCommands : list SlashCommand
}.

(** [useState('')] and [useState(SLASH_COMMANDS)]. *)
Definition initialState (registry : list SlashCommand) : SearchState :=
  {| searchQuery := js ""; filteredCommands := registry |}.

Section handleSearchChange.

(** [String.prototype.toLowerCase], the Unicode case mapping of the
    engine, which the search is generic in. *)
Variable toLowerCase : jsstring -> jsstring.

(** The predicate handed to [SLASH_COMMANDS.filter]. *)
Definition matchesQuery (query : jsstring) (cmd : SlashCommand) : bool :=
  includes (toLowerCase (name cmd)) (toLowerCase query)
  || includes (toLowerCase (trigger cmd)) (toLowerCase query)
  || includes (toLowerCase (description cmd)) (toLowerCase query).

Definition handleSearchChange (registry : list SlashCommand)
    (query : jsstring) : SearchState :=
  let filtered := filter (matchesQuery query) registry in
  {| searchQuery := query; filteredCommands := filtered |}.

End handleSearchChange.

End SearchPalette.

(* ================================================================== *)
(** * AgentInput: handleCommandSelect (design document, section 5) *)
(* ================================================================== *)

Module Select.

(** What a selection does: the events of the dispatch, and the setters
    and the [onChangeText] prop of [AgentInput]. *)
Inductive uiEvent : Type :=
| Dispatch (e : Executor.event)
| SetShowCommandPalette (b : bool)
| SetShowAutocomplete (b : bool)
| OnChangeText (text : jsstring).

Definition handleCommandSelect (w : Executor.World)
    (sessionId : option jsstring) (command : SlashCommand)
  : list uiEvent * Executor.completion unit :=
  if strictEquals (Commands.id command) (js "model") then
    ([SetShowCommandPalette false; SetShowAutocomplete false],
     Executor.Normal tt)
  else
    match AgentInput.executeCommand w sessionId command None with
    | (t, Executor.Normal _) =>
        (map Dispatch t
         ++ [OnChangeText (js "");
             SetShowCommandPalette false;
             SetShowAutocomplete false],
         Executor.Normal tt)
    | (t, Executor.Throw e) => (map Dispatch t, Executor.Throw e)
    end.

(** The dispatch events among the events of a selection. *)
Definition dispatched (t : list uiEvent) : list Executor.event :=
  flat_map (fun e => match e with Dispatch d => [d] | _ => [] end) t.

End Select.

(* ================================================================== *)
(** * sources/components/CommandPalette.tsx: what is rendered *)
(* ================================================================== *)

Module PaletteView.

(** One pressable row: its React key, its label, whether it is drawn as
    selected (label style and radio), and what a press calls. *)
Record Row : Type := {
  rowKey : jsstring;
  rowLabel : jsstring;
  isSelected : bool;
  onPress : list Palette.call
}.

(** Inside the overlay: the empty state with its message, or the rows. *)
Inductive content : Type :=
| EmptyState (message : jsstring)
| Rows (rows : list Row).

(** [null], or the backdrop and the overlay with its height limit, the
    title when there is one, and the content. *)
Inductive view : Type :=
| Hidden
| Overlay (maxHeight : Z) (title : option jsstring) (inside : content).

Definition rowOf (props : Palette.CommandPaletteProps)
    (item : Palette.CommandItem) (index : jsnum) : Row :=
  {| rowKey := Palette.id item;
     rowLabel := Palette.label item;
     isSelected := numStrictEquals index (Palette.selectedIndex props);
     onPress := Palette.handleSelect index |}.

(** The body of the component below the hooks. [maxHeight] and
    [emptyMessage] are the optional props of these names; the icon nodes
    are left out as in [CommandItem]. *)
Definition render (props : Palette.CommandPaletteProps)
    (maxHeight : option Z) (emptyMessage : option jsstring) : view :=
  if negb (Palette.visible props) then Hidden
  else
    let isEmpty :=
      numStrictEquals (arrayLength (Palette.items props)) (Num 0) in
    Overlay
      (match maxHeight with Some h => h | None => 280%Z end)
      (if truthyString (Palette.title props)
       then Some (Palette.title props) else None)
      (if isEmpty then
         EmptyState (orOptString emptyMessage (js "No items available"))
       else
         Rows (mapWithIndex (rowOf props) 0 (Palette.items props))).

(** The rows on screen, none unless the list is shown. *)
Definition rowsOf (v : view) : list Row :=
  match v with
  | Overlay _ _ (Rows rows) => rows
  | _ => []
  end.

End PaletteView.

(* ================================================================== *)
(** * sources/components/ModelSelectorModal.tsx *)
(* ================================================================== *)

Module ModelSelector.

Record Model : Type := {
  id : jsstring;
  name : jsstring;
  provider : jsstring
}.

Record ModelSelectorModalProps : Type := {
  visible : bool;
  models : list Model;
  selectedModelId : option jsstring;
  isLoading : option bool
}.

Inductive call : Type :=
| HapticsLight
| OnSelect (modelId : jsstring)
| OnClose.

(** The icon element: the Claude image, or the [cpu] glyph in a colour. *)
Inductive icon : Type :=
| ClaudeImage
| Cpu (color : jsstring).

Definition getProviderIcon (provider : jsstring) : icon :=
  if strictEquals provider (js "anthropic") then ClaudeImage
  else if strictEquals provider (js "openai") then Cpu (js "#10a37f")
  else if strictEquals provider (js "google") then Cpu (js "#4285f4")
  else Cpu (js "gray").

Definition handleSelect (model : Model) : list call :=
  [HapticsLight; OnSelect (id model)].

(** [props.selectedModel]: the props carry [selectedModelId] and no
    field of this name, so the read gives [undefined]. *)
Definition selectedModel (props : ModelSelectorModalProps)
  : option jsstring := None.

Record Row : Type := {
  rowKey : jsstring;
  rowIcon : icon;
  rowLabel : jsstring;
  isSelected : bool;
  onPress : list call
}.

(** Inside the overlay, under the title: the spinner, the empty state
    with its message, or the rows. *)
Inductive content : Type :=
| Loading
| EmptyState (message : jsstring)
| Rows (rows : list Row).

(** [null], or the backdrop, with what a press on it calls, and the
    overlay. The overlay's height limit and its title are constants. *)
Inductive view : Type :=
| Hidden
| Shown (backdrop : list call) (inside : content).

Definition rowOf (props : ModelSelectorModalProps) (model : Model) : Row :=
  let isSelected := strictEqualsOpt (id model) (selectedModel props) in
  {| rowKey := id model;
     rowIcon := getProviderIcon (provider model);
     rowLabel := name model;
     isSelected := isSelected;
     onPress := handleSelect model |}.

Definition render (props : ModelSelectorModalProps) : view :=
  if negb (visible props) then Hidden
  else
    let isEmpty := numStrictEquals (arrayLength (models props)) (Num 0) in
    Shown [OnClose]
      (if truthyFlag (isLoading props) then Loading
       else if isEmpty then EmptyState (js "Configure models in CLI")
       else Rows (map (rowOf props) (models props))).

(** Everything on screen that reacts to a press, each with the calls
    the press makes: the backdrop first, then the rows. *)
Definition pressable (v : view) : list (list call) :=
  match v with
  | Hidden => []
  | Shown backdrop inside =>
      backdrop
      :: match inside with
         | Rows rows => map onPress rows
         | _ => []
         end
  end.

End ModelSelector.

(* ================================================================== *)
(** * Vocabulary of the properties *)
(* ================================================================== *)

(** A string made of trimmable code units only (the empty one included). *)
Definition blank (s : jsstring) : Prop :=
  Forall (fun c => isTrimmable c = true) s.

(** A string that does not begin with a trimmable code unit. *)
Definition startsClean (t : jsstring) : Prop :=
  match t with
  | [] => True
  | c :: _ => isTrimmable c = false
  end.

(** A string with nothing to trim at either end. *)
Definition edgeClean (t : jsstring) : Prop :=
  startsClean t /\ startsClean (rev t).

(** [p] is a prefix of [s], code unit by code unit. *)
Definition isPrefix (p s : jsstring) : Prop :=
  exists r, s = p ++ r.

(** The dispatch goes ahead: the session guard of [executeCommand] does
    not fire. *)
Definition guardPasses (sessionId : jsstring) (command : SlashCommand)
  : bool :=
  negb (truthyFlag (requiresSession command) && negb (truthyString sessionId)).

(** The channel does not deliver a positive answer: there is no socket,
    obtaining it or calling it throws (timeout, disconnect), the answer
    is malformed, or it carries no truthy [success]. *)
Definition channelFails (w : Executor.World) (sessionId : jsstring)
    (command : SlashCommand) (params : option Executor.Params) : Prop :=
  match Executor.getApiSyncSocket w with
  | Executor.Throw _ => True
  | Executor.Normal None => True
  | Executor.Normal (Some sock) =>
      match Executor.socketSessionRPC sock sessionId (rpcName command)
              (Executor.orEmptyParams params) with
      | Executor.Throw _ => True
      | Executor.Normal Executor.Nullish => True
      | Executor.Normal (Executor.Obj r) =>
          truthyFlag (Executor.success r) = false
      end
  end.

(** A socket that answers every call the same way. *)
Definition socketAnswering (c : Executor.completion Executor.wire)
  : Executor.ApiSocket :=
  {| Executor.socketSessionRPC := fun _ _ _ => c |}.

Definition worldWith (s : Executor.completion (option Executor.ApiSocket))
  : Executor.World :=
  {| Executor.getApiSyncSocket := s;
     Executor.typeErrorMessage := js "TypeError" |}.

Definition okAnswer : Executor.completion Executor.wire :=
  Executor.Normal
    (Executor.Obj {| Executor.success := Some true;
                     Executor.message := None |}).

(** A visible palette over [l] with [i] as the selected index. *)
Definition paletteOver (l : list Palette.CommandItem) (i : jsnum)
  : Palette.CommandPaletteProps :=
  {| Palette.visible := true;
     Palette.title := js "Select Model";
     Palette.items := l;
     Palette.selectedIndex := i |}.

Definition threeItems : list Palette.CommandItem :=
  [ {| Palette.id := js "a"; Palette.label := js "A" |};
    {| Palette.id := js "b"; Palette.label := js "B" |};
    {| Palette.id := js "c"; Palette.label := js "C" |} ].

(** Modelled from the spec: the owner of the selection state, the parent
    component that is not part of the sources at hand, stores the index it
    receives through [onSelect] and passes it back as [selectedIndex]. *)
Definition ownerStores (props : Palette.CommandPaletteProps)
    (calls : list Palette.call) : Palette.CommandPaletteProps :=
  fold_left
    (fun p c =>
       match c with
       | Palette.OnSelect i =>
           {| Palette.visible := Palette.visible p;
              Palette.title := Palette.title p;
              Palette.items := Palette.items p;
              Palette.selectedIndex := i |}
       | _ => p
       end)
    calls props.

(** A run of key presses, each handled on the props the owner last set. *)
Definition pressKeys (props : Palette.CommandPaletteProps)
    (keys : list jsstring) : Palette.CommandPaletteProps :=
  fold_left (fun p key => ownerStores p (Palette.handleKeyPress p key))
            keys props.

(** The props with another selected index, everything else as it was. *)
Definition withSelectedIndex (props : Palette.CommandPaletteProps)
    (i : jsnum) : Palette.CommandPaletteProps :=
  {| Palette.visible := Palette.visible props;
     Palette.title := Palette.title props;
     Palette.items := Palette.items props;
     Palette.selectedIndex := i |}.

(** [q] occurs in [s]: some text before it, some text after it. *)
Definition isInfix (q s : jsstring) : Prop :=
  exists a b, s = a ++ q ++ b.

(** The case mapping on ASCII letters, an instance of [toLowerCase]. *)
Definition asciiToLowerCase (s : jsstring) : jsstring :=
  map (fun c => if (65 <=? c)%N && (c <=? 90)%N then (c + 32)%N else c) s.

(** How many rows of a palette view are drawn as selected. *)
Definition selectedRows (rows : list PaletteView.Row) : nat :=
  List.length (filter PaletteView.isSelected rows).

(** Membership in an explicit list, case by case. *)
Ltac in_cases :=
  intros;
  repeat match goal with
         | H : In _ (_ :: _) |- _ => destruct H as [H | H]
         | H : In _ [] |- _ => destruct H
         end;
  try discriminate; try congruence; auto.

(** Events that set [isExecuting]. *)
Definition setsIsExecuting (e : Executor.event) : bool :=
  match e with
  | Executor.SetIsExecuting _ => true
  | _ => false
  end.

(** A command other than the one entry of the registry. *)
Definition helpCommand : SlashCommand :=
  {| Commands.id := js "help";
     trigger := js "/help";
     name := js "Help";
     description := js "Show help";
     icon := None;
     type := Message;
     rpcName := None;
     requiresSession := Some false |}.

(** The one entry of [SLASH_COMMANDS]. *)
Definition modelCommand : SlashCommand :=
  {| Commands.id := js "model";
     trigger := js "/model";
     name := js "Select Model";
     description := js "Change the AI model";
     icon := Some (js "cpu");
     type := Rpc;
     rpcName := Some (js "setModel");
     requiresSession := Some true |}.

(* ================================================================== *)
(** * Facts about the string primitives *)
(* ================================================================== *)

Section StringFacts.

Lemma strictEquals_eq (a b : jsstring) :
  strictEquals a b = true <-> a = b.
Proof.
  revert b; induction a as [|x a IH]; intros [|y b]; simpl;
    try (split; [discriminate | intros H; inversion H]); try tauto.
  rewrite andb_true_iff, N.eqb_eq, IH.
  split; [intros [-> ->]; reflexivity | intros H; inversion H; auto].
Qed.

Lemma strictEquals_neq (a b : jsstring) :
  strictEquals a b = false <-> a <> b.
Proof.
  rewrite <- strictEquals_eq.
  destruct (strictEquals a b); split; congruence.
Qed.

Lemma startsWith_isPrefix (s p : jsstring) :
  startsWith s p = true <-> isPrefix p s.
Proof.
  unfold isPrefix. revert s; induction p as [|x p IH]; intros s; simpl.
  - split; [intros _; exists s; reflexivity | reflexivity].
  - destruct s as [|y s].
    + split; [discriminate | intros [r H]; discriminate].
    + rewrite andb_true_iff, N.eqb_eq, IH. split.
      * intros [-> [r ->]]. exists r. reflexivity.
      * intros [r H]. inversion H; subst. split; [reflexivity | now exists r].
Qed.

Lemma isPrefix_trans (a b c : jsstring) :
  isPrefix a b -> isPrefix b c -> isPrefix a c.
Proof.
  intros [r ->] [r' ->]. exists (r ++ r'). now rewrite app_assoc.
Qed.

Lemma blank_rev (a : jsstring) : blank a -> blank (rev a).
Proof. unfold blank. apply Forall_rev. Qed.

Lemma trimStart_blank (l s : jsstring) :
  blank l -> trimStart (l ++ s) = trimStart s.
Proof.
  induction 1 as [|c l Hc _ IH]; simpl; [reflexivity|].
  now rewrite Hc.
Qed.

Lemma trimStart_startsClean (s : jsstring) :
  startsClean s -> trimStart s = s.
Proof.
  destruct s as [|c s]; simpl; [reflexivity|]. now intros ->.
Qed.

Lemma trimStart_split (s : jsstring) :
  exists l, s = l ++ trimStart s /\ blank l.
Proof.
  induction s as [|c s [l [Hs Hl]]]; simpl.
  - exists []. split; [reflexivity | constructor].
  - destruct (isTrimmable c) eqn:Hc.
    + exists (c :: l). split; [simpl; congruence | now constructor].
    + exists []. split; [reflexivity | constructor].
Qed.

Lemma trimStart_clean (s : jsstring) : startsClean (trimStart s).
Proof.
  induction s as [|c s IH]; simpl; [exact I|].
  destruct (isTrimmable c) eqn:Hc; [exact IH | exact Hc].
Qed.

(** A clean code unit stops [trimStart]: what follows it is kept. *)
Lemma trimStart_app_clean (u v : jsstring) (d : code_unit) :
  isTrimmable d = false ->
  trimStart (u ++ d :: v) = trimStart u ++ d :: v.
Proof.
  intros Hd. induction u as [|c u IH]; simpl.
  - now rewrite Hd.
  - destruct (isTrimmable c); [exact IH | reflexivity].
Qed.

Lemma trimEnd_blank (s r : jsstring) :
  blank r -> trimEnd (s ++ r) = trimEnd s.
Proof.
  intros Hr. unfold trimEnd.
  rewrite rev_app_distr, trimStart_blank by now apply blank_rev.
  reflexivity.
Qed.

Lemma trimEnd_app_clean (a w : jsstring) (d : code_unit) :
  isTrimmable d = false ->
  trimEnd (a ++ d :: w) = a ++ d :: trimEnd w.
Proof.
  intros Hd. unfold trimEnd.
  replace (rev (a ++ d :: w)) with (rev w ++ d :: rev a).
  - rewrite trimStart_app_clean by exact Hd.
    rewrite rev_app_distr. simpl. rewrite rev_involutive.
    now rewrite <- app_assoc.
  - rewrite rev_app_distr. simpl. now rewrite <- app_assoc.
Qed.

Lemma trimEnd_split (s : jsstring) :
  exists r, s = trimEnd s ++ r /\ blank r.
Proof.
  destruct (trimStart_split (rev s)) as [l [Hs Hl]].
  exists (rev l). split; [|now apply blank_rev].
  unfold trimEnd. rewrite <- rev_app_distr, <- Hs.
  now rewrite rev_involutive.
Qed.

Lemma trimEnd_rev_clean (s : jsstring) : startsClean (rev (trimEnd s)).
Proof.
  unfold trimEnd. rewrite rev_involutive. apply trimStart_clean.
Qed.

(** [trimEnd] leaves alone a string whose last code unit is clean. *)
Lemma trimEnd_endsClean (t : jsstring) :
  startsClean (rev t) -> trimEnd t = t.
Proof.
  intros H. unfold trimEnd.
  rewrite trimStart_startsClean by exact H. apply rev_involutive.
Qed.

(** The result of [trimEnd] is empty or ends with a clean code unit. *)
Lemma trimEnd_shape (s : jsstring) :
  trimEnd s = [] \/
  exists a d, trimEnd s = a ++ [d] /\ isTrimmable d = false.
Proof.
  pose proof (trimEnd_rev_clean s) as H.
  destruct (rev (trimEnd s)) as [|d u] eqn:E.
  - left. apply (f_equal (@rev _)) in E. now rewrite rev_involutive in E.
  - right. exists (rev u), d. split; [|exact H].
    apply (f_equal (@rev _)) in E. now rewrite rev_involutive in E.
Qed.

Lemma trimEnd_startsClean (s : jsstring) :
  startsClean s -> startsClean (trimEnd s).
Proof.
  destruct s as [|c s]; simpl; [intros _; exact I|].
  intros Hc. change (c :: s) with ([] ++ c :: s).
  rewrite trimEnd_app_clean by exact Hc. exact Hc.
Qed.

Lemma trim_edgeClean (s : jsstring) : edgeClean (trim s).
Proof.
  split.
  - apply trimEnd_startsClean, trimStart_clean.
  - apply trimEnd_rev_clean.
Qed.

(** Every string is its trimmed form between two blank margins. *)
Lemma trim_split (s : jsstring) :
  exists l r, s = l ++ trim s ++ r /\ blank l /\ blank r.
Proof.
  destruct (trimStart_split s) as [l [Hs Hl]].
  destruct (trimEnd_split (trimStart s)) as [r [Hu Hr]].
  exists l, r. unfold trim. rewrite <- Hu. auto.
Qed.

(** Conversely the margins are all that [trim] removes. *)
Lemma trim_margins (l t r : jsstring) :
  blank l -> blank r -> edgeClean t -> trim (l ++ t ++ r) = t.
Proof.
  intros Hl Hr [Hs He]. unfold trim.
  rewrite trimStart_blank by exact Hl.
  destruct t as [|c t].
  - simpl. replace (trimStart r) with (@nil code_unit); [reflexivity|].
    rewrite <- (app_nil_r r), trimStart_blank by exact Hr. reflexivity.
  - simpl in Hs. simpl app at 1. simpl trimStart. rewrite Hs.
    change (c :: t ++ r) with ((c :: t) ++ r).
    rewrite trimEnd_blank by exact Hr.
    apply trimEnd_endsClean, He.
Qed.

Lemma trim_blank (s : jsstring) : blank s -> trim s = [].
Proof.
  intros H. rewrite <- (app_nil_r s).
  change (@nil code_unit) with (@nil code_unit ++ []) at 1.
  apply (trim_margins (t := [])); [exact H | constructor | split; exact I].
Qed.

(** Trimming is monotone for the prefix order on strings that start
    with a clean code unit (such as the command-open character). *)
Lemma trimEnd_isPrefix (x y : jsstring) :
  isPrefix x y -> isPrefix (trimEnd x) (trimEnd y).
Proof.
  intros [z ->].
  destruct (trimEnd_shape x) as [E | [a [d [E Hd]]]].
  - rewrite E. now exists (trimEnd (x ++ z)).
  - destruct (trimEnd_split x) as [r [Hx _]].
    rewrite E in Hx. rewrite E.
    rewrite Hx at 1. rewrite <- !app_assoc. simpl app.
    rewrite trimEnd_app_clean by exact Hd.
    exists (trimEnd (r ++ z)). now rewrite <- app_assoc.
Qed.

Lemma trim_isPrefix (x y : jsstring) :
  startsClean x -> startsClean y ->
  isPrefix x y -> isPrefix (trim x) (trim y).
Proof.
  intros Hx Hy H. unfold trim.
  rewrite !trimStart_startsClean by assumption.
  now apply trimEnd_isPrefix.
Qed.

End StringFacts.

(* ================================================================== *)
(** * The trigger detector *)
(* ================================================================== *)

Section DetectorFacts.

Lemma isActive_eq (x t : jsstring) :
  isActive (useCommandDetector x t) = true <-> trim x = t.
Proof. unfold useCommandDetector; simpl. apply strictEquals_eq. Qed.

(** The cases of [useCommandDetector.test.ts]. *)
Example detects_exact_trigger :
  isActive (useCommandDetector (js "/model") (js "/model")) = true.
Proof. reflexivity. Qed.

Example rejects_extra_content :
  isActive (useCommandDetector (js "/model extra") (js "/model")) = false.
Proof. reflexivity. Qed.

Example rejects_other_text :
  isActive (useCommandDetector (js "/other") (js "/model")) = false.
Proof. reflexivity. Qed.

Example ignores_outer_whitespace :
  isActive (useCommandDetector (js "  /model  ") (js "/model")) = true.
Proof. reflexivity. Qed.

Example rejects_empty_text :
  isActive (useCommandDetector (js "") (js "/model")) = false.
Proof. reflexivity. Qed.

Example is_case_sensitive :
  isActive (useCommandDetector (js "/Model") (js "/model")) = false /\
  isActive (useCommandDetector (js "/MODEL") (js "/model")) = false.
Proof. split; reflexivity. Qed.

(** C3: [useCommandDetector(x, t).isActive] is true exactly when [x] with
    its leading and trailing white space stripped is [t], code unit for
    code unit (so case matters). Stripping removes the two blank margins
    and nothing in between: internal white space stays. The empty input
    is never active for a non-empty trigger. *)
Theorem detector_active_iff_trimmed_text_is_trigger :
  forall x t : jsstring,
    (isActive (useCommandDetector x t) = true <-> trim x = t)
    /\ (trim x = t <->
        exists l r, x = l ++ t ++ r /\ blank l /\ blank r /\ edgeClean t)
    /\ (forall a m b, isTrimmable a = false -> isTrimmable b = false ->
        trim (a :: m ++ [b]) = a :: m ++ [b])
    /\ (t <> [] -> isActive (useCommandDetector [] t) = false).
Proof.
  intros x t. split; [apply isActive_eq|]. split; [|split].
  - split.
    + intros <-. destruct (trim_split x) as [l [r [Hx [Hl Hr]]]].
      exists l, r. repeat split; auto; apply trim_edgeClean.
    + intros [l [r [-> [Hl [Hr Ht]]]]]. now apply trim_margins.
  - intros a m b Ha Hb.
    assert (Hc : edgeClean (a :: m ++ [b])).
    { split; [exact Ha|].
      change (a :: m ++ [b]) with ((a :: m) ++ [b]).
      rewrite rev_app_distr. exact Hb. }
    pose proof (@trim_margins [] (a :: m ++ [b]) []
                  (Forall_nil _) (Forall_nil _) Hc) as H.
    simpl in H. now rewrite app_nil_r in H.
  - intros Ht. destruct t; [congruence | reflexivity].
Qed.

(** C8: the [clear] operation handed out by [useCommandDetector] returns
    the empty string, whatever the text and the trigger were and however
    often it is called. *)
Theorem clear_returns_empty_string :
  forall (text trigger : jsstring),
    clear (useCommandDetector text trigger) tt = js ""
    /\ js "" = []
    /\ forall calls : list unit,
         Forall (fun cleared => cleared = [])
                (map (clear (useCommandDetector text trigger)) calls).
Proof.
  intros text trigger. split; [reflexivity|]. split; [reflexivity|].
  intros calls. induction calls as [|u calls IH].
  - constructor.
  - constructor; [reflexivity | exact IH].
Qed.

(** C10: with the empty string as trigger, every input made of white
    space only, the empty input included, is active. *)
Theorem empty_trigger_active_on_blank_input :
  forall x : jsstring,
    blank x -> isActive (useCommandDetector x (js "")) = true.
Proof.
  intros x Hx. apply isActive_eq. now apply trim_blank.
Qed.

Lemma empty_trigger_active_on_blank_input_witness :
  blank (js "  ") /\ blank (js "") /\
  isActive (useCommandDetector (js "  ") (js "")) = true /\
  isActive (useCommandDetector (js "") (js "")) = true.
Proof.
  assert (H2 : blank (js "  ")) by (repeat constructor).
  assert (H0 : blank (js "")) by constructor.
  split; [exact H2|]. split; [exact H0|]. split.
  - exact (empty_trigger_active_on_blank_input H2).
  - exact (empty_trigger_active_on_blank_input H0).
Defined.

End DetectorFacts.

(* ================================================================== *)
(** * The palette's key handler *)
(* ================================================================== *)

Section PaletteFacts.

Import Palette.

(** On a non-empty list and an index in range, ArrowUp steps back by one
    and wraps from the first item to the last. *)
Lemma arrowUp_in_range (props : CommandPaletteProps) (i : Z) :
  visible props = true ->
  selectedIndex props = Num i ->
  validIndex (items props) (Num i) = true ->
  let n := Z.of_nat (List.length (items props)) in
  let j := if (i =? 0)%Z then (n - 1)%Z else (i - 1)%Z in
  handleKeyPress props (js "ArrowUp") = [PreventDefault; OnSelect (Num j)]
  /\ validIndex (items props) (Num j) = true.
Proof.
  intros Hv Hs Hi n j. unfold handleKeyPress. rewrite Hv, Hs. simpl.
  unfold validIndex in *. apply andb_true_iff in Hi as [H0 Hn].
  apply Z.leb_le in H0. apply Z.ltb_lt in Hn.
  subst j n. destruct (Z.eqb_spec i 0) as [->|Hne].
  - simpl. split; [reflexivity|].
    apply andb_true_iff. split; [apply Z.leb_le | apply Z.ltb_lt]; lia.
  - replace (i >? 0)%Z with true by (symmetry; apply Z.gtb_lt; lia).
    split; [reflexivity|].
    apply andb_true_iff. split; [apply Z.leb_le | apply Z.ltb_lt]; lia.
Qed.

(** On a non-empty list and an index in range, ArrowDown steps forward
    by one and wraps from the last item to the first. *)
Lemma arrowDown_in_range (props : CommandPaletteProps) (i : Z) :
  visible props = true ->
  selectedIndex props = Num i ->
  validIndex (items props) (Num i) = true ->
  let n := Z.of_nat (List.length (items props)) in
  let j := if (i =? n - 1)%Z then 0%Z else (i + 1)%Z in
  handleKeyPress props (js "ArrowDown") = [PreventDefault; OnSelect (Num j)]
  /\ validIndex (items props) (Num j) = true.
Proof.
  intros Hv Hs Hi n j. unfold handleKeyPress. rewrite Hv, Hs. simpl.
  unfold validIndex in *. apply andb_true_iff in Hi as [H0 Hn].
  apply Z.leb_le in H0. apply Z.ltb_lt in Hn. fold n in Hn |- *.
  replace (n =? 0)%Z with false by (symmetry; apply Z.eqb_neq; lia).
  subst j. destruct (Z.eqb_spec i (n - 1)) as [->|Hne].
  - replace (n - 1 + 1)%Z with n by lia.
    rewrite Z.rem_same by lia. split; [reflexivity|].
    apply andb_true_iff. split; [apply Z.leb_le | apply Z.ltb_lt]; lia.
  - rewrite Z.rem_small by lia. split; [reflexivity|].
    apply andb_true_iff. split; [apply Z.leb_le | apply Z.ltb_lt]; lia.
Qed.

(** The wraparound example of the specification: three candidates. *)
Example three_items_wrap :
  handleKeyPress (paletteOver threeItems (Num 0)) (js "ArrowUp")
    = [PreventDefault; OnSelect (Num 2)]
  /\ handleKeyPress (paletteOver threeItems (Num 2)) (js "ArrowDown")
    = [PreventDefault; OnSelect (Num 0)].
Proof. split; reflexivity. Qed.

(** With an owner that stores what it is handed, any run of arrow keys
    from an index in range stays in range, over the same items. *)
Lemma arrow_key_runs_stay_in_range (keys : list jsstring) :
  forall props : CommandPaletteProps,
    visible props = true ->
    validIndex (items props) (selectedIndex props) = true ->
    Forall (fun key => key = js "ArrowUp" \/ key = js "ArrowDown") keys ->
    items (pressKeys props keys) = items props
    /\ validIndex (items props) (selectedIndex (pressKeys props keys)) = true.
Proof.
  induction keys as [|key keys IH]; intros props Hv Hi Hk.
  - split; [reflexivity | exact Hi].
  - inversion Hk as [|? ? Hkey Hrest]; subst.
    destruct (selectedIndex props) as [i|] eqn:Hs; [|discriminate Hi].
    assert (Hstep : exists j,
               handleKeyPress props key = [PreventDefault; OnSelect (Num j)]
               /\ validIndex (items props) (Num j) = true).
    { destruct Hkey as [-> | ->].
      - destruct (arrowUp_in_range props Hv Hs Hi) as [E V]. eauto.
      - destruct (arrowDown_in_range props Hv Hs Hi) as [E V]. eauto. }
    destruct Hstep as [j [E V]].
    unfold pressKeys. simpl fold_left. rewrite E. simpl ownerStores.
    fold (pressKeys {| visible := visible props; title := title props;
                       items := items props; selectedIndex := Num j |} keys).
    apply (IH {| visible := visible props; title := title props;
                 items := items props; selectedIndex := Num j |});
      [exact Hv | exact V | exact Hrest].
Qed.

(** With items to choose from, Enter confirms the highlighted one. *)
Lemma enter_on_items_selects (props : CommandPaletteProps) :
  visible props = true -> items props <> [] ->
  handleKeyPress props (js "Enter")
  = [PreventDefault; HapticsLight; OnSelect (selectedIndex props)].
Proof.
  intros Hv Hi. unfold handleKeyPress. rewrite Hv.
  destruct (items props) as [|item rest]; [congruence | reflexivity].
Qed.

(** C9: while the palette is visible with an empty items list, Enter
    reaches no branch of the key handler: no callback runs, and in
    particular [onSelect] is never invoked. *)
Theorem enter_on_empty_items_never_selects :
  forall props : CommandPaletteProps,
    visible props = true ->
    items props = [] ->
    handleKeyPress props (js "Enter") = []
    /\ forall i, ~ In (OnSelect i) (handleKeyPress props (js "Enter")).
Proof.
  intros props Hv Hi.
  assert (E : handleKeyPress props (js "Enter") = []).
  { unfold handleKeyPress. rewrite Hv, Hi. reflexivity. }
  split; [exact E|]. intros i. rewrite E. intros [].
Qed.

Lemma enter_on_empty_items_never_selects_witness :
  let props := {| visible := true; title := js "Select Model";
                  items := []; selectedIndex := Num 0 |} in
  handleKeyPress props (js "Enter") = []
  /\ forall i, ~ In (OnSelect i) (handleKeyPress props (js "Enter")).
Proof.
  intros props.
  exact (@enter_on_empty_items_never_selects props eq_refl eq_refl).
Defined.

(** C1, as the claim states it: the handlers do hand out indices that
    are out of range for the current items. On a visible palette with no
    items and [selectedIndex = 0], ArrowUp passes [-1] and ArrowDown
    passes [NaN]; and since the component never clamps the prop, a
    selected index beyond the list ([5] of three items) is stepped to
    [4]. *)
Lemma arrow_keys_can_leave_range :
  handleKeyPress (paletteOver [] (Num 0)) (js "ArrowUp")
    = [PreventDefault; OnSelect (Num (-1))]
  /\ validIndex (@nil CommandItem) (Num (-1)) = false
  /\ handleKeyPress (paletteOver [] (Num 0)) (js "ArrowDown")
    = [PreventDefault; OnSelect NaN]
  /\ validIndex (@nil CommandItem) NaN = false
  /\ handleKeyPress (paletteOver threeItems (Num 5)) (js "ArrowUp")
    = [PreventDefault; OnSelect (Num 4)]
  /\ validIndex threeItems (Num 4) = false.
Proof. repeat split. Qed.

(** C1: on a visible palette whose selected index designates an item
    (so the list is not empty), ArrowUp and ArrowDown each call
    [onSelect] once, with an index that again designates an item of the
    same list. *)
Theorem arrow_keys_keep_valid_index :
  forall (props : CommandPaletteProps) (key : jsstring),
    visible props = true ->
    validIndex (items props) (selectedIndex props) = true ->
    key = js "ArrowUp" \/ key = js "ArrowDown" ->
    exists j,
      handleKeyPress props key = [PreventDefault; OnSelect j]
      /\ validIndex (items props) j = true.
Proof.
  intros props key Hv Hi Hk.
  destruct (selectedIndex props) as [i|] eqn:Hs; [|discriminate Hi].
  destruct Hk as [-> | ->].
  - destruct (arrowUp_in_range props Hv Hs Hi) as [E V]. eauto.
  - destruct (arrowDown_in_range props Hv Hs Hi) as [E V]. eauto.
Qed.

Lemma arrow_keys_keep_valid_index_witness :
  exists j,
    handleKeyPress (paletteOver threeItems (Num 0)) (js "ArrowUp")
      = [PreventDefault; OnSelect j]
    /\ validIndex threeItems j = true.
Proof.
  exact (@arrow_keys_keep_valid_index (paletteOver threeItems (Num 0))
           (js "ArrowUp") eq_refl eq_refl (or_introl eq_refl)).
Defined.

(** C2: on a visible palette with no items the arrow keys are not
    no-ops. Whatever the selected index, ArrowDown calls [onSelect(NaN)],
    and ArrowUp calls [onSelect] too, with [-1] unless the index was
    positive. *)
Theorem arrow_keys_on_empty_items_call_onSelect :
  forall (t : jsstring) (sel : jsnum),
    let props := {| visible := true; title := t;
                    items := []; selectedIndex := sel |} in
    handleKeyPress props (js "ArrowDown") = [PreventDefault; OnSelect NaN]
    /\ (numGt sel (Num 0) = false ->
        handleKeyPress props (js "ArrowUp")
        = [PreventDefault; OnSelect (Num (-1))])
    /\ exists i, handleKeyPress props (js "ArrowUp")
                 = [PreventDefault; OnSelect i].
Proof.
  intros t sel props. unfold handleKeyPress. simpl. repeat split.
  - destruct sel; reflexivity.
  - intros ->. reflexivity.
  - eexists. reflexivity.
Qed.

End PaletteFacts.

(* ================================================================== *)
(** * The command dispatcher *)
(* ================================================================== *)

Section ExecutorFacts.

Import Executor.

(** The end-to-end scenario with a live session: one call of [setModel],
    no alert. *)
Example model_dispatch_with_session :
  executeCommand (worldWith (Normal (Some (socketAnswering okAnswer))))
                 (js "s1") modelCommand None
  = ([SetIsExecuting true;
      SocketSessionRPC (js "s1") (Some (js "setModel")) [];
      SetIsExecuting false], Normal tt).
Proof. reflexivity. Qed.

(** A rejected call surfaces as an alert carrying the error's message. *)
Example model_dispatch_rejected :
  executeCommand
    (worldWith (Normal (Some (socketAnswering
                                (Throw (ErrorObject (js "timeout")))))))
    (js "s1") modelCommand None
  = ([SetIsExecuting true;
      SocketSessionRPC (js "s1") (Some (js "setModel")) [];
      ModalAlert (js "Error") (js "timeout");
      SetIsExecuting false], Normal tt).
Proof. reflexivity. Qed.

(** A malformed answer makes [result.success] throw inside the [try];
    the [catch] of [executeCommand] turns it into an alert. *)
Example model_dispatch_malformed :
  executeCommand
    (worldWith (Normal (Some (socketAnswering (Normal Nullish)))))
    (js "s1") modelCommand None
  = ([SetIsExecuting true;
      SocketSessionRPC (js "s1") (Some (js "setModel")) [];
      ModalAlert (js "Error") (js "TypeError");
      SetIsExecuting false], Normal tt).
Proof. reflexivity. Qed.

(** [sessionRPC] never throws: its own [catch] answers for the channel. *)
Lemma sessionRPC_normal (w : World) (sessionId : jsstring)
    (method : option jsstring) (params : option Params) :
  exists result, snd (sessionRPC w sessionId method params) = Normal result.
Proof.
  unfold sessionRPC, lift, bind, callSocket, tryCatch, ret.
  destruct (getApiSyncSocket w) as [[sock|]|e]; simpl; eauto.
  destruct (socketSessionRPC sock sessionId method (orEmptyParams params))
    as [r|e]; simpl; eauto.
Qed.

(** What the user is told, case by case, when a remote-call dispatch
    goes ahead. *)
Lemma executeCommand_rpc_alerts (w : World) (sessionId : jsstring)
    (command : SlashCommand) (params : option Params) :
  guardPasses sessionId command = true ->
  type command = Rpc ->
  alerts (fst (executeCommand w sessionId command params)) =
  match getApiSyncSocket w with
  | Throw e =>
      [(js "Error", orString (errorMessageOr e (js "RPC call failed"))
                             (js "Command failed"))]
  | Normal None => [(js "Error", js "Not connected to session")]
  | Normal (Some sock) =>
      match socketSessionRPC sock sessionId (rpcName command)
              (orEmptyParams params) with
      | Throw e =>
          [(js "Error", orString (errorMessageOr e (js "RPC call failed"))
                                 (js "Command failed"))]
      | Normal Nullish => [(js "Error", typeErrorMessage w)]
      | Normal (Obj r) =>
          if truthyFlag (success r) then []
          else [(js "Error", orOptString (message r) (js "Command failed"))]
      end
  end.
Proof.
  unfold guardPasses. intros Hg Ht. apply negb_true_iff in Hg.
  unfold executeCommand, sessionRPC. rewrite Hg, Ht.
  unfold lift, bind, callSocket, tryCatch, tryFinally, ret, emit.
  destruct (getApiSyncSocket w) as [[sock|]|e]; simpl; try reflexivity.
  destruct (socketSessionRPC sock sessionId (rpcName command)
              (orEmptyParams params)) as [[r|]|e]; simpl; try reflexivity.
  destruct (truthyFlag (success r)); reflexivity.
Qed.

(** No run of [executeCommand] ends abruptly. *)
Lemma executeCommand_normal (w : World) (sessionId : jsstring)
    (command : SlashCommand) (params : option Params) :
  snd (executeCommand w sessionId command params) = Normal tt.
Proof.
  unfold executeCommand, sessionRPC.
  destruct (truthyFlag (requiresSession command)
            && negb (truthyString sessionId)); [reflexivity|].
  unfold lift, bind, callSocket, tryCatch, tryFinally, ret, emit.
  destruct (type command); [|reflexivity].
  destruct (getApiSyncSocket w) as [[sock|]|e]; simpl; try reflexivity.
  destruct (socketSessionRPC sock sessionId (rpcName command)
              (orEmptyParams params)) as [[r|]|e]; simpl; try reflexivity.
  destruct (truthyFlag (success r)); reflexivity.
Qed.


(** Without a socket [sessionRPC] answers for the channel itself: the
    dispatch shows "Not connected to session" and calls nothing. *)
Lemma dispatch_without_socket (w : World) (sessionId : jsstring)
    (command : SlashCommand) (params : option Params) :
  guardPasses sessionId command = true ->
  type command = Rpc ->
  getApiSyncSocket w = Normal None ->
  executeCommand w sessionId command params
  = ([SetIsExecuting true;
      ModalAlert (js "Error") (js "Not connected to session");
      SetIsExecuting false], Normal tt).
Proof.
  unfold guardPasses. intros Hg Ht Hs. apply negb_true_iff in Hg.
  unfold executeCommand, sessionRPC. now rewrite Hg, Ht, Hs.
Qed.

(** The guard reads nothing but the session id. With an id at hand a
    remote-call command goes to the socket, whether or not the session
    behind the id is live. *)
Lemma dispatch_with_session_id_reaches_channel (w : World)
    (sock : ApiSocket) (c : code_unit) (sid : jsstring)
    (command : SlashCommand) (params : option Params) :
  type command = Rpc ->
  getApiSyncSocket w = Normal (Some sock) ->
  remoteCalls
    (fst (AgentInput.executeCommand w (Some (c :: sid)) command params))
  = [SocketSessionRPC (c :: sid) (rpcName command) (orEmptyParams params)].
Proof.
  intros Ht Hs.
  unfold AgentInput.executeCommand, executeCommand, sessionRPC.
  cbn [orOptString orString truthyString negb].
  rewrite andb_false_r, Ht, Hs.
  unfold lift, bind, callSocket, tryCatch, tryFinally, ret, emit. cbn.
  destruct (socketSessionRPC sock (c :: sid) (rpcName command)
              (orEmptyParams params)) as [[r|]|e]; cbn; try reflexivity.
  destruct (truthyFlag (success r)); reflexivity.
Qed.





End ExecutorFacts.

(* ================================================================== *)
(** * The candidate filter of AgentInput *)
(* ================================================================== *)

Section AgentInputFacts.

Import AgentInput.

Lemma slash_is_clean : isTrimmable 47%N = false.
Proof. reflexivity. Qed.

Lemma js_slash : js "/" = [47%N].
Proof. reflexivity. Qed.

Lemma startsWith_slash (s : jsstring) :
  startsWith s (js "/") = true <-> exists r, s = 47%N :: r.
Proof. rewrite startsWith_isPrefix. unfold isPrefix. now rewrite js_slash. Qed.

(** Trimming keeps a leading command-open character in place. *)
Lemma trim_slash (r : jsstring) :
  trim (47%N :: r) = 47%N :: trimEnd r.
Proof.
  unfold trim. rewrite trimStart_startsClean by apply slash_is_clean.
  apply (@trimEnd_app_clean [] r 47%N slash_is_clean).
Qed.

Lemma matchesOf_In (registry : list SlashCommand) (trimmed : jsstring)
    (cmd : SlashCommand) :
  In cmd (matchesOf registry trimmed)
  <-> In cmd registry /\ isPrefix trimmed (trigger cmd).
Proof.
  unfold matchesOf. now rewrite filter_In, startsWith_isPrefix.
Qed.

Lemma matchesOf_incl_registry (registry : list SlashCommand)
    (trimmed : jsstring) :
  incl (matchesOf registry trimmed) registry.
Proof. intros cmd H. now apply matchesOf_In in H. Qed.

(** A longer query narrows the matches. *)
Lemma matchesOf_antitone (registry : list SlashCommand) (p q : jsstring) :
  isPrefix p q -> incl (matchesOf registry q) (matchesOf registry p).
Proof.
  intros Hpq cmd H. apply matchesOf_In in H as [Hin Hq].
  apply matchesOf_In. split; [exact Hin|].
  now apply isPrefix_trans with q.
Qed.

Lemma showAutocomplete_iff (matches : list SlashCommand) :
  numGt (arrayLength matches) (Num 0) = true <-> matches <> [].
Proof.
  destruct matches; simpl; split; try congruence; try reflexivity.
  discriminate.
Qed.

(** The three branches of the effect, told apart on the trimmed value. *)
Lemma detect_full (registry : list SlashCommand) (value : jsstring) :
  trim value = js "/" ->
  detectCommandTriggers registry value
  = {| showCommandPalette := true; showAutocomplete := false;
       filteredCommands := registry |}.
Proof.
  intros H. unfold detectCommandTriggers. now rewrite H.
Qed.

Lemma detect_narrow (registry : list SlashCommand) (value : jsstring) :
  startsWith (trim value) (js "/") = true -> trim value <> js "/" ->
  detectCommandTriggers registry value
  = {| showCommandPalette := false;
       showAutocomplete :=
         numGt (arrayLength (matchesOf registry (trim value))) (Num 0);
       filteredCommands := matchesOf registry (trim value) |}.
Proof.
  intros Hs Hne. unfold detectCommandTriggers.
  apply strictEquals_neq in Hne. now rewrite Hne, Hs.
Qed.

Lemma detect_hidden (registry : list SlashCommand) (value : jsstring) :
  startsWith (trim value) (js "/") = false ->
  detectCommandTriggers registry value
  = {| showCommandPalette := false; showAutocomplete := false;
       filteredCommands := [] |}.
Proof.
  intros Hs. unfold detectCommandTriggers. rewrite Hs.
  destruct (strictEquals (trim value) (js "/")) eqn:E; [|reflexivity].
  apply strictEquals_eq in E. rewrite E in Hs. discriminate.
Qed.

(** Candidates always come from the registry. *)
Lemma detect_incl_registry (registry : list SlashCommand) (value : jsstring) :
  incl (filteredCommands (detectCommandTriggers registry value)) registry.
Proof.
  unfold detectCommandTriggers.
  destruct (strictEquals (trim value) (js "/")); [apply incl_refl|].
  destruct (startsWith (trim value) (js "/")).
  - apply matchesOf_incl_registry.
  - apply incl_nil_l.
Qed.

(** The scenario of the specification on the shipped registry. *)
Example registry_scenario :
  filteredCommands (detectCommandTriggers SLASH_COMMANDS (js "/mo"))
    = [modelCommand]
  /\ filteredCommands (detectCommandTriggers SLASH_COMMANDS (js "/x")) = []
  /\ filteredCommands (detectCommandTriggers SLASH_COMMANDS (js "/"))
    = SLASH_COMMANDS
  /\ filteredCommands (detectCommandTriggers SLASH_COMMANDS (js "model")) = [].
Proof. repeat split. Qed.

(** C6, as the claim words its last case: the raw input [" /model"] does
    not start with the command-open character, and yet the effect, which
    looks at the trimmed value, offers the model command and shows the
    autocomplete list. *)
Lemma input_with_leading_space_still_matches :
  let value := js " /model" in
  let st := detectCommandTriggers SLASH_COMMANDS value in
  startsWith value (js "/") = false
  /\ filteredCommands st = [modelCommand]
  /\ showAutocomplete st = true
  /\ ~ (startsWith value (js "/") = false ->
        filteredCommands st = []
        /\ showCommandPalette st = false /\ showAutocomplete st = false).
Proof.
  repeat split. intros H. destruct (H eq_refl) as [E _]. discriminate E.
Qed.

(** C6: the mode is chosen on the trimmed input. If it is exactly ["/"]
    the whole registry is offered, in its order, and the palette is
    shown. If it starts with ["/"] and goes on, the result is the
    registry filtered, in its order, down to the commands whose trigger
    starts with the trimmed input. If the trimmed input does not start
    with ["/"], which includes every empty or blank input, the result is
    empty and both the palette and the autocomplete list are hidden. *)
Theorem candidate_filter_modes :
  forall (registry : list SlashCommand) (value : jsstring),
    let trimmed := trim value in
    let st := detectCommandTriggers registry value in
    (trimmed = js "/" ->
       filteredCommands st = registry
       /\ showCommandPalette st = true /\ showAutocomplete st = false)
    /\ (startsWith trimmed (js "/") = true -> trimmed <> js "/" ->
       filteredCommands st
         = filter (fun cmd => startsWith (trigger cmd) trimmed) registry
       /\ (forall cmd, In cmd (filteredCommands st)
                       <-> In cmd registry /\ isPrefix trimmed (trigger cmd))
       /\ showCommandPalette st = false
       /\ (showAutocomplete st = true <-> filteredCommands st <> []))
    /\ (startsWith trimmed (js "/") = false ->
       filteredCommands st = []
       /\ showCommandPalette st = false /\ showAutocomplete st = false)
    /\ (blank value ->
       filteredCommands st = []
       /\ showCommandPalette st = false /\ showAutocomplete st = false).
Proof.
  intros registry value trimmed st. subst trimmed st. repeat apply conj.
  - intros H. rewrite (detect_full registry value H). auto.
  - intros Hs Hne. rewrite (detect_narrow registry value Hs Hne). simpl.
    split; [reflexivity|]. split; [intros cmd; apply matchesOf_In|].
    split; [reflexivity | apply showAutocomplete_iff].
  - intros Hs. rewrite (detect_hidden registry value Hs). auto.
  - intros Hb. rewrite detect_hidden; [auto|].
    now rewrite (trim_blank Hb).
Qed.

(** C7: for inputs [x] and [y] that both start with the command-open
    character, if [x] is a prefix of [y] then every candidate produced
    for [y] is a candidate produced for [x]: both for the narrowing
    filter on the trimmed inputs and for the effect as a whole. *)
Theorem narrowing_filter_is_monotone :
  forall (registry : list SlashCommand) (x y : jsstring),
    startsWith x (js "/") = true ->
    startsWith y (js "/") = true ->
    startsWith y x = true ->
    incl (matchesOf registry (trim y)) (matchesOf registry (trim x))
    /\ incl (filteredCommands (detectCommandTriggers registry y))
            (filteredCommands (detectCommandTriggers registry x)).
Proof.
  intros registry x y Hx Hy Hxy.
  apply startsWith_slash in Hx as [x' ->].
  apply startsWith_slash in Hy as [y' ->].
  apply startsWith_isPrefix in Hxy.
  assert (Hp : isPrefix (trim (47%N :: x')) (trim (47%N :: y'))).
  { apply trim_isPrefix; try apply slash_is_clean. exact Hxy. }
  split; [now apply matchesOf_antitone|].
  assert (Sx : startsWith (trim (47%N :: x')) (js "/") = true).
  { apply startsWith_slash. rewrite trim_slash. eauto. }
  assert (Sy : startsWith (trim (47%N :: y')) (js "/") = true).
  { apply startsWith_slash. rewrite trim_slash. eauto. }
  destruct (strictEquals (trim (47%N :: x')) (js "/")) eqn:Ex.
  - apply strictEquals_eq in Ex. rewrite (detect_full registry _ Ex).
    apply detect_incl_registry.
  - apply strictEquals_neq in Ex.
    rewrite (detect_narrow registry _ Sx Ex). simpl.
    destruct (strictEquals (trim (47%N :: y')) (js "/")) eqn:Ey.
    + exfalso. apply strictEquals_eq in Ey. apply Ex.
      rewrite Ey in Hp. destruct Hp as [r Hr].
      rewrite trim_slash in Hr |- *. rewrite js_slash in *.
      simpl in Hr. inversion Hr as [Hnil].
      destruct (trimEnd x'); [reflexivity | discriminate].
    + apply strictEquals_neq in Ey.
      rewrite (detect_narrow registry _ Sy Ey). simpl.
      now apply matchesOf_antitone.
Qed.

Lemma narrowing_filter_is_monotone_witness :
  startsWith (js "/mo") (js "/") = true
  /\ startsWith (js "/model") (js "/") = true
  /\ startsWith (js "/model") (js "/mo") = true
  /\ incl (matchesOf SLASH_COMMANDS (trim (js "/model")))
          (matchesOf SLASH_COMMANDS (trim (js "/mo")))
  /\ incl (filteredCommands (detectCommandTriggers SLASH_COMMANDS (js "/model")))
          (filteredCommands (detectCommandTriggers SLASH_COMMANDS (js "/mo"))).
Proof.
  split; [reflexivity|]. split; [reflexivity|]. split; [reflexivity|].
  exact (@narrowing_filter_is_monotone SLASH_COMMANDS (js "/mo") (js "/model")
           eq_refl eq_refl eq_refl).
Defined.

End AgentInputFacts.

(* ================================================================== *)
(** * Further facts about the string primitives *)
(* ================================================================== *)

Section MoreStringFacts.

Lemma blank_app (a b : jsstring) : blank a -> blank b -> blank (a ++ b).
Proof. unfold blank. intros Ha Hb. apply Forall_app. split; assumption. Qed.

(** Blank margins around a text do not change what [trim] gives. *)
Lemma trim_padding (l v r : jsstring) :
  blank l -> blank r -> trim (l ++ v ++ r) = trim v.
Proof.
  intros Hl Hr.
  destruct (trim_split v) as [l' [r' [Hv [Hl' Hr']]]].
  rewrite Hv at 1.
  replace (l ++ (l' ++ trim v ++ r') ++ r)
    with ((l ++ l') ++ trim v ++ (r' ++ r))
    by (now rewrite <- !app_assoc).
  apply trim_margins; try now apply blank_app.
  apply trim_edgeClean.
Qed.

Lemma trim_idempotent (v : jsstring) : trim (trim v) = trim v.
Proof.
  pose proof (@trim_margins [] (trim v) [] (Forall_nil _) (Forall_nil _)
                (trim_edgeClean v)) as H.
  simpl in H. now rewrite app_nil_r in H.
Qed.

Lemma includes_isInfix (s q : jsstring) :
  includes s q = true <-> isInfix q s.
Proof.
  unfold isInfix. induction s as [|c s IH]; simpl.
  - rewrite orb_false_r, startsWith_isPrefix. unfold isPrefix. split.
    + intros [r H]. exists [], r. exact H.
    + intros [a [b H]]. symmetry in H.
      apply app_eq_nil in H as [-> H]. apply app_eq_nil in H as [-> ->].
      now exists [].
  - rewrite orb_true_iff, IH. split.
    + intros [H | [a [b H]]].
      * apply (startsWith_isPrefix (c :: s) q) in H as [r H].
        exists [], r. exact H.
      * exists (c :: a), b. simpl. now rewrite H.
    + intros [[|c' a] [b H]].
      * left. apply (startsWith_isPrefix (c :: s) q). now exists b.
      * right. simpl in H. inversion H; subst. now exists a, b.
Qed.

Lemma isInfix_refl (s : jsstring) : isInfix s s.
Proof. exists [], []. simpl. now rewrite app_nil_r. Qed.

Lemma isInfix_nil (s : jsstring) : isInfix [] s.
Proof. exists [], s. reflexivity. Qed.

Lemma isInfix_trans (p q s : jsstring) :
  isInfix p q -> isInfix q s -> isInfix p s.
Proof.
  intros [a [b ->]] [a' [b' ->]].
  exists (a' ++ a), (b ++ b'). now rewrite <- !app_assoc.
Qed.

Lemma isPrefix_isInfix (p s : jsstring) : isPrefix p s -> isInfix p s.
Proof. intros [r ->]. now exists [], r. Qed.

End MoreStringFacts.

(* ================================================================== *)
(** * More on the trigger detector and the command-trigger effect *)
(* ================================================================== *)

Section DetectionFacts.

Import AgentInput.

(** X1: white space around the input never changes the detection:
    padding a text with blank margins gives the same [isActive]. *)
Theorem detector_ignores_blank_margins :
  forall l x r t : jsstring,
    blank l -> blank r ->
    isActive (useCommandDetector (l ++ x ++ r) t)
    = isActive (useCommandDetector x t).
Proof.
  intros l x r t Hl Hr. unfold useCommandDetector. simpl.
  now rewrite trim_padding.
Qed.

Lemma detector_ignores_blank_margins_witness :
  isActive (useCommandDetector (js "  " ++ js "/model" ++ js " ") (js "/model"))
  = isActive (useCommandDetector (js "/model") (js "/model")).
Proof.
  apply detector_ignores_blank_margins; repeat constructor.
Defined.

(** X2: a trigger that itself begins or ends with white space can never
    be active, whatever is typed. *)
Theorem padded_trigger_is_never_active :
  forall x t : jsstring,
    ~ edgeClean t -> isActive (useCommandDetector x t) = false.
Proof.
  intros x t Ht.
  destruct (isActive (useCommandDetector x t)) eqn:E; [|reflexivity].
  exfalso. apply Ht. apply isActive_eq in E. rewrite <- E.
  apply trim_edgeClean.
Qed.

Lemma padded_trigger_is_never_active_witness :
  isActive (useCommandDetector (js "/model ") (js "/model ")) = false.
Proof.
  apply padded_trigger_is_never_active.
  intros [_ H]. discriminate H.
Defined.

(** X3: the command state depends on the trimmed value only: blank
    margins around the value, or trimming it beforehand, change nothing. *)
Theorem command_state_ignores_blank_margins :
  forall (registry : list SlashCommand) (l v r : jsstring),
    blank l -> blank r ->
    detectCommandTriggers registry (l ++ v ++ r)
    = detectCommandTriggers registry v
    /\ detectCommandTriggers registry (trim v)
       = detectCommandTriggers registry v.
Proof.
  intros registry l v r Hl Hr. unfold detectCommandTriggers.
  now rewrite trim_padding, trim_idempotent.
Qed.

Lemma command_state_ignores_blank_margins_witness :
  detectCommandTriggers SLASH_COMMANDS (js " " ++ js "/mo" ++ js "  ")
  = detectCommandTriggers SLASH_COMMANDS (js "/mo")
  /\ detectCommandTriggers SLASH_COMMANDS (trim (js "/mo"))
     = detectCommandTriggers SLASH_COMMANDS (js "/mo").
Proof.
  apply command_state_ignores_blank_margins; repeat constructor.
Defined.

(** X4: when the detector is active for the trigger of a registry
    command that starts with the command-open character, the effect has
    that command among its candidates and shows command UI for it: the
    autocomplete list, unless the trigger is the bare ["/"]. *)
Theorem active_trigger_is_a_candidate :
  forall (registry : list SlashCommand) (value : jsstring)
         (cmd : SlashCommand),
    In cmd registry ->
    startsWith (trigger cmd) (js "/") = true ->
    isActive (useCommandDetector value (trigger cmd)) = true ->
    let st := detectCommandTriggers registry value in
    In cmd (filteredCommands st)
    /\ (trigger cmd <> js "/" ->
        showAutocomplete st = true /\ showCommandPalette st = false)
    /\ (trigger cmd = js "/" ->
        showCommandPalette st = true /\ showAutocomplete st = false).
Proof.
  intros registry value cmd Hin Hs Ha st. subst st.
  apply isActive_eq in Ha. split; [|split].
  - unfold detectCommandTriggers. rewrite Ha, Hs.
    destruct (strictEquals (trigger cmd) (js "/")); simpl; [exact Hin|].
    apply matchesOf_In. split; [exact Hin|]. exists []. now rewrite app_nil_r.
  - intros Hne. rewrite <- Ha in Hne, Hs.
    rewrite (detect_narrow registry value Hs Hne). simpl. split; [|reflexivity].
    apply showAutocomplete_iff. intros E.
    assert (Hc : In cmd (matchesOf registry (trim value))).
    { apply matchesOf_In. split; [exact Hin|].
      rewrite Ha. exists []. now rewrite app_nil_r. }
    rewrite E in Hc. exact Hc.
  - intros He. rewrite <- Ha in He.
    rewrite (detect_full registry value He). auto.
Qed.

Lemma active_trigger_is_a_candidate_witness :
  let st := detectCommandTriggers SLASH_COMMANDS (js " /model ") in
  In modelCommand (filteredCommands st)
  /\ (trigger modelCommand <> js "/" ->
      showAutocomplete st = true /\ showCommandPalette st = false)
  /\ (trigger modelCommand = js "/" ->
      showCommandPalette st = true /\ showAutocomplete st = false).
Proof.
  exact (@active_trigger_is_a_candidate SLASH_COMMANDS (js " /model ")
           modelCommand (or_introl eq_refl) eq_refl eq_refl).
Defined.

(** X5: the command state the effect sets is always coherent. The
    palette and the autocomplete list are never shown together; the
    autocomplete list is shown exactly when, off the full-palette mode,
    there are candidates; with the palette shown the candidates are the
    whole registry; and with neither shown there are no candidates. *)
Theorem command_state_is_coherent :
  forall (registry : list SlashCommand) (value : jsstring),
    let st := detectCommandTriggers registry value in
    (showCommandPalette st && showAutocomplete st = false)
    /\ (showAutocomplete st = true -> filteredCommands st <> [])
    /\ (showCommandPalette st = true -> filteredCommands st = registry)
    /\ (showCommandPalette st = false ->
        (showAutocomplete st = true <-> filteredCommands st <> []))
    /\ (showCommandPalette st = false -> showAutocomplete st = false ->
        filteredCommands st = []).
Proof.
  intros registry value st. subst st. unfold detectCommandTriggers.
  destruct (strictEquals (trim value) (js "/"));
    [|destruct (startsWith (trim value) (js "/"))];
    cbn [showCommandPalette showAutocomplete filteredCommands].
  - split; [reflexivity|]. split; [discriminate|]. split; [reflexivity|].
    split; discriminate.
  - pose proof (showAutocomplete_iff (matchesOf registry (trim value))) as H.
    split; [reflexivity|]. split; [apply H|]. split; [discriminate|].
    split; [intros _; exact H|].
    intros _ Hf.
    destruct (matchesOf registry (trim value)) as [|c m]; [reflexivity|].
    discriminate Hf.
  - split; [reflexivity|]. split; [discriminate|]. split; [discriminate|].
    split; [|reflexivity]. intros _. split; [discriminate | congruence].
Qed.

End DetectionFacts.

(* ================================================================== *)
(** * The selection handler *)
(* ================================================================== *)

Section SelectionFacts.

Import AgentInput.

(** X7: selecting the command whose id is ["model"] only hides the two
    command views: nothing is dispatched and the typed text is left in
    place. As the registry holds no other command, no selection from it
    ever calls the channel or shows an alert. *)
Theorem model_selection_never_dispatches :
  forall (w : Executor.World) (sessionId : option jsstring)
         (command : SlashCommand),
    (Commands.id command = js "model" ->
       Select.handleCommandSelect w sessionId command
       = ([Select.SetShowCommandPalette false;
           Select.SetShowAutocomplete false], Executor.Normal tt))
    /\ (In command SLASH_COMMANDS ->
       Select.dispatched
         (fst (Select.handleCommandSelect w sessionId command)) = []).
Proof.
  intros w sessionId command. split.
  - intros H. unfold Select.handleCommandSelect. now rewrite H.
  - intros [<- | []]. reflexivity.
Qed.

Lemma dispatched_app (a b : list Select.uiEvent) :
  Select.dispatched (a ++ b) = Select.dispatched a ++ Select.dispatched b.
Proof. unfold Select.dispatched. apply flat_map_app. Qed.

Lemma dispatched_map (t : list Executor.event) :
  Select.dispatched (map Select.Dispatch t) = t.
Proof.
  induction t as [|e t IH]; [reflexivity|].
  unfold Select.dispatched in *. simpl. now rewrite IH.
Qed.

(** X8: selecting any other command runs the dispatch and then, whether
    it went through, was refused for want of a session, or failed on the
    channel, clears the input and hides both command views. The
    selection never ends abruptly. *)
Theorem other_selection_always_clears_input :
  forall (w : Executor.World) (sessionId : option jsstring)
         (command : SlashCommand),
    Commands.id command <> js "model" ->
    let t := fst (AgentInput.executeCommand w sessionId command None) in
    Select.handleCommandSelect w sessionId command
    = (map Select.Dispatch t
       ++ [Select.OnChangeText (js "");
           Select.SetShowCommandPalette false;
           Select.SetShowAutocomplete false],
       Executor.Normal tt)
    /\ Select.dispatched
         (fst (Select.handleCommandSelect w sessionId command)) = t.
Proof.
  intros w sessionId command Hid t.
  assert (E : Select.handleCommandSelect w sessionId command
              = (map Select.Dispatch t
                 ++ [Select.OnChangeText (js "");
                     Select.SetShowCommandPalette false;
                     Select.SetShowAutocomplete false],
                 Executor.Normal tt)).
  { subst t. unfold Select.handleCommandSelect.
    apply strictEquals_neq in Hid. rewrite Hid.
    unfold AgentInput.executeCommand.
    pose proof (executeCommand_normal w (orOptString sessionId (js ""))
                  command None) as Hn.
    destruct (Executor.executeCommand w (orOptString sessionId (js ""))
                command None) as [tr c].
    simpl in Hn. now rewrite Hn. }
  split; [exact E|].
  rewrite E. cbn [fst]. rewrite dispatched_app, dispatched_map.
  apply app_nil_r.
Qed.

Lemma other_selection_always_clears_input_witness :
  Select.handleCommandSelect
    (worldWith (Executor.Normal None)) None helpCommand
  = ([Select.Dispatch (Executor.SetIsExecuting true);
      Select.Dispatch (Executor.SetIsExecuting false);
      Select.OnChangeText (js "");
      Select.SetShowCommandPalette false;
      Select.SetShowAutocomplete false], Executor.Normal tt).
Proof.
  assert (Hid : Commands.id helpCommand <> js "model") by discriminate.
  exact (proj1 (@other_selection_always_clears_input
                  (worldWith (Executor.Normal None)) None helpCommand Hid)).
Defined.

End SelectionFacts.

(* ================================================================== *)
(** * The search of the palette *)
(* ================================================================== *)

Section SearchFacts.

Import SearchPalette.

Variable toLowerCase : jsstring -> jsstring.

Lemma includes_nil (s : jsstring) : includes s [] = true.
Proof. destruct s; reflexivity. Qed.

Lemma filter_all (A : Type) (f : A -> bool) (l : list A) :
  (forall x, In x l -> f x = true) -> filter f l = l.
Proof.
  induction l as [|x l IH]; intros H; simpl; [reflexivity|].
  rewrite (H x (or_introl eq_refl)), IH; [reflexivity|].
  intros y Hy. apply H. now right.
Qed.

Lemma matchesQuery_infix (query : jsstring) (cmd : SlashCommand) :
  matchesQuery toLowerCase query cmd = true <->
  isInfix (toLowerCase query) (toLowerCase (name cmd))
  \/ isInfix (toLowerCase query) (toLowerCase (trigger cmd))
  \/ isInfix (toLowerCase query) (toLowerCase (description cmd)).
Proof.
  unfold matchesQuery.
  rewrite !orb_true_iff, !includes_isInfix. tauto.
Qed.

End SearchFacts.

(** X9: searching for the empty text restores the palette's initial
    state, the whole registry in its order, as soon as the case mapping
    leaves the empty string empty. *)
Theorem empty_search_restores_registry :
  forall (toLowerCase : jsstring -> jsstring)
         (registry : list SlashCommand),
    toLowerCase (js "") = js "" ->
    SearchPalette.handleSearchChange toLowerCase registry (js "")
    = SearchPalette.initialState registry.
Proof.
  intros toLowerCase registry H0.
  unfold SearchPalette.handleSearchChange, SearchPalette.initialState.
  f_equal. apply filter_all. intros cmd _.
  unfold SearchPalette.matchesQuery. rewrite H0.
  change (js "") with (@nil code_unit). now rewrite includes_nil.
Qed.

Lemma empty_search_restores_registry_witness :
  SearchPalette.handleSearchChange asciiToLowerCase SLASH_COMMANDS (js "")
  = SearchPalette.initialState SLASH_COMMANDS.
Proof.
  exact (@empty_search_restores_registry asciiToLowerCase SLASH_COMMANDS
           eq_refl).
Defined.

(** X10: the search narrows as the query grows: when the lower-cased
    first query occurs inside the lower-cased second one, every command
    found for the second is found for the first. *)
Theorem search_narrows_with_longer_query :
  forall (toLowerCase : jsstring -> jsstring)
         (registry : list SlashCommand) (q1 q2 : jsstring),
    isInfix (toLowerCase q1) (toLowerCase q2) ->
    incl (SearchPalette.filteredCommands
            (SearchPalette.handleSearchChange toLowerCase registry q2))
         (SearchPalette.filteredCommands
            (SearchPalette.handleSearchChange toLowerCase registry q1)).
Proof.
  intros toLowerCase registry q1 q2 H cmd.
  unfold SearchPalette.handleSearchChange.
  cbn [SearchPalette.filteredCommands].
  rewrite !filter_In, !matchesQuery_infix.
  intros [Hin [Hm | [Hm | Hm]]]; (split; [exact Hin|]);
    [left | right; left | right; right];
    now apply isInfix_trans with (toLowerCase q2).
Qed.

Lemma search_narrows_with_longer_query_witness :
  incl (SearchPalette.filteredCommands
          (SearchPalette.handleSearchChange asciiToLowerCase
             SLASH_COMMANDS (js "Model")))
       (SearchPalette.filteredCommands
          (SearchPalette.handleSearchChange asciiToLowerCase
             SLASH_COMMANDS (js "MOD"))).
Proof.
  apply search_narrows_with_longer_query.
  exists [], (js "el"). reflexivity.
Defined.

(** X11: on text that is already lower case, the search finds whatever
    the autocomplete offers: a command whose trigger starts with the
    text has the text inside its trigger. *)
Theorem search_finds_autocomplete_matches :
  forall (toLowerCase : jsstring -> jsstring)
         (registry : list SlashCommand) (text : jsstring),
    toLowerCase text = text ->
    (forall cmd, In cmd registry ->
                 toLowerCase (trigger cmd) = trigger cmd) ->
    incl (AgentInput.matchesOf registry text)
         (SearchPalette.filteredCommands
            (SearchPalette.handleSearchChange toLowerCase registry text)).
Proof.
  intros toLowerCase registry text Ht Hreg cmd Hc.
  apply matchesOf_In in Hc as [Hin Hp].
  unfold SearchPalette.handleSearchChange.
  cbn [SearchPalette.filteredCommands].
  apply filter_In. split; [exact Hin|].
  apply matchesQuery_infix. right; left.
  rewrite Ht, (Hreg cmd Hin). now apply isPrefix_isInfix.
Qed.

Lemma search_finds_autocomplete_matches_witness :
  incl (AgentInput.matchesOf SLASH_COMMANDS (js "/mo"))
       (SearchPalette.filteredCommands
          (SearchPalette.handleSearchChange asciiToLowerCase
             SLASH_COMMANDS (js "/mo"))).
Proof.
  apply search_finds_autocomplete_matches.
  - reflexivity.
  - intros cmd [<- | []]. reflexivity.
Defined.

(* ================================================================== *)
(** * More on the dispatcher *)
(* ================================================================== *)

Section DispatchFacts.

Import Executor.

(** X12: [sessionRPC] never throws. It calls the socket at most once,
    with exactly the session id and method it was given and [{}] for
    missing params, and not at all when no socket can be had. What the
    socket answers is handed back untouched, malformed or not; what it
    throws comes back as [{ success: false, message }]. *)
Theorem sessionRPC_contract :
  forall (w : World) (sessionId : jsstring) (method : option jsstring)
         (params : option Params),
    let run := sessionRPC w sessionId method params in
    (exists result, snd run = Normal result)
    /\ (fst run = [] \/
        fst run = [SocketSessionRPC sessionId method (orEmptyParams params)])
    /\ (fst run = [] <->
        forall sock, getApiSyncSocket w <> Normal (Some sock))
    /\ (forall sock answer,
          getApiSyncSocket w = Normal (Some sock) ->
          socketSessionRPC sock sessionId method (orEmptyParams params)
          = Normal answer ->
          snd run = Normal answer)
    /\ (forall sock e,
          getApiSyncSocket w = Normal (Some sock) ->
          socketSessionRPC sock sessionId method (orEmptyParams params)
          = Throw e ->
          snd run
          = Normal (Obj {| success := Some false;
                           message := Some (errorMessageOr e
                                              (js "RPC call failed")) |})).
Proof.
  intros w sessionId method params run. subst run.
  unfold sessionRPC, lift, bind, callSocket, tryCatch, ret.
  destruct (getApiSyncSocket w) as [[sock|]|e] eqn:Hs.
  - destruct (socketSessionRPC sock sessionId method (orEmptyParams params))
      as [r|e] eqn:Ha; cbn.
    + split; [eauto|]. split; [now right|]. split.
      * split; [discriminate | intros H; now destruct (H sock)].
      * split; intros sock' x Hk Hx; inversion Hk; subst; congruence.
    + split; [eauto|]. split; [now right|]. split.
      * split; [discriminate | intros H; now destruct (H sock)].
      * split; intros sock' x Hk Hx; inversion Hk; subst; congruence.
  - cbn. split; [eauto|]. split; [now left|]. split.
    + split; [intros _ sock; discriminate | reflexivity].
    + split; intros sock' x Hk; discriminate Hk.
  - cbn. split; [eauto|]. split; [now left|]. split.
    + split; [intros _ sock; discriminate | reflexivity].
    + split; intros sock' x Hk; discriminate Hk.
Qed.

(** X13: a command of type [message] that passes the session guard
    does nothing but raise and lower [isExecuting]: no call on the
    channel, no alert, and no message is sent. *)
Theorem message_command_only_toggles_isExecuting :
  forall (w : World) (sessionId : jsstring) (command : SlashCommand)
         (params : option Params),
    guardPasses sessionId command = true ->
    type command = Message ->
    executeCommand w sessionId command params
    = ([SetIsExecuting true; SetIsExecuting false], Normal tt).
Proof.
  intros w sessionId command params Hg Ht.
  unfold guardPasses in Hg. apply negb_true_iff in Hg.
  unfold executeCommand. now rewrite Hg, Ht.
Qed.

Lemma message_command_only_toggles_isExecuting_witness :
  executeCommand (worldWith (Normal (Some (socketAnswering okAnswer))))
                 (js "s1") helpCommand None
  = ([SetIsExecuting true; SetIsExecuting false], Normal tt).
Proof.
  exact (@message_command_only_toggles_isExecuting
           (worldWith (Normal (Some (socketAnswering okAnswer))))
           (js "s1") helpCommand None eq_refl eq_refl).
Defined.

(** X14: a remote-call dispatch that goes ahead is silent exactly when
    the channel delivers an answer with a truthy [success]: an alert is
    shown if and only if the channel fails. *)
Theorem remote_call_alerts_iff_channel_fails :
  forall (w : World) (sessionId : jsstring) (command : SlashCommand)
         (params : option Params),
    guardPasses sessionId command = true ->
    type command = Rpc ->
    (alerts (fst (executeCommand w sessionId command params)) = []
     <-> ~ channelFails w sessionId command params).
Proof.
  intros w sessionId command params Hg Ht.
  rewrite executeCommand_rpc_alerts by assumption.
  unfold channelFails.
  destruct (getApiSyncSocket w) as [[sock|]|e];
    try (split; [discriminate | intros H; now destruct H]).
  destruct (socketSessionRPC sock sessionId (rpcName command)
              (orEmptyParams params)) as [[r|]|e];
    try (split; [discriminate | intros H; now destruct H]).
  destruct (truthyFlag (success r)).
  - split; [discriminate | reflexivity].
  - split; [discriminate | intros H; now destruct H].
Qed.

Lemma remote_call_alerts_iff_channel_fails_witness :
  let w := worldWith (Normal (Some (socketAnswering okAnswer))) in
  alerts (fst (executeCommand w (js "s1") modelCommand None)) = []
  <-> ~ channelFails w (js "s1") modelCommand None.
Proof.
  exact (@remote_call_alerts_iff_channel_fails
           (worldWith (Normal (Some (socketAnswering okAnswer))))
           (js "s1") modelCommand None eq_refl eq_refl).
Defined.

(** X15: the session guard only protects commands that require a
    session. A remote-call command that does not is dispatched even when
    [AgentInput] has no session id: the socket is called once, with the
    empty string as session id. *)
Theorem optional_session_command_calls_with_empty_id :
  forall (w : World) (sock : ApiSocket) (sessionId : option jsstring)
         (command : SlashCommand) (params : option Params),
    truthyFlag (requiresSession command) = false ->
    type command = Rpc ->
    sessionId = None \/ sessionId = Some (js "") ->
    getApiSyncSocket w = Normal (Some sock) ->
    remoteCalls (fst (AgentInput.executeCommand w sessionId command params))
    = [SocketSessionRPC (js "") (rpcName command) (orEmptyParams params)].
Proof.
  intros w sock sessionId command params Hr Ht Hsid Hs.
  unfold AgentInput.executeCommand, executeCommand, sessionRPC.
  rewrite Hr, Ht, Hs.
  unfold lift, bind, callSocket, tryCatch, tryFinally, ret, emit.
  assert (E : orOptString sessionId (js "") = [])
    by (destruct Hsid as [-> | ->]; reflexivity).
  rewrite E. cbn.
  destruct (socketSessionRPC sock [] (rpcName command)
              (orEmptyParams params)) as [[r|]|e]; cbn;
    try reflexivity.
  destruct (truthyFlag (success r)); reflexivity.
Qed.

Lemma optional_session_command_calls_with_empty_id_witness :
  let command :=
    {| Commands.id := js "theme"; trigger := js "/theme";
       name := js "Theme"; description := js "Toggle theme";
       icon := None; type := Rpc; rpcName := Some (js "toggleTheme");
       requiresSession := None |} in
  remoteCalls
    (fst (AgentInput.executeCommand
            (worldWith (Normal (Some (socketAnswering okAnswer))))
            None command None))
  = [SocketSessionRPC (js "") (Some (js "toggleTheme")) []].
Proof.
  intros command.
  exact (@optional_session_command_calls_with_empty_id
           (worldWith (Normal (Some (socketAnswering okAnswer))))
           (socketAnswering okAnswer) None command None
           eq_refl eq_refl (or_introl eq_refl) eq_refl).
Defined.

(** X16: a dispatch that goes ahead is bracketed: it raises
    [isExecuting] first, lowers it last and does not touch it in
    between, and in between it calls the channel at most once and shows
    at most one alert. *)
Theorem dispatch_is_bracketed :
  forall (w : World) (sessionId : jsstring) (command : SlashCommand)
         (params : option Params),
    guardPasses sessionId command = true ->
    let t := fst (executeCommand w sessionId command params) in
    exists middle,
      t = SetIsExecuting true :: middle ++ [SetIsExecuting false]
      /\ forallb (fun e => negb (setsIsExecuting e)) middle = true
      /\ (List.length (remoteCalls t) <= 1)%nat
      /\ (List.length (alerts t) <= 1)%nat.
Proof.
  intros w sessionId command params Hg t. subst t.
  exists (removelast (tl (fst (executeCommand w sessionId command params)))).
  unfold guardPasses in Hg. apply negb_true_iff in Hg.
  unfold executeCommand, sessionRPC. rewrite Hg.
  unfold lift, bind, callSocket, tryCatch, tryFinally, ret, emit.
  destruct (type command); [|cbn; repeat split; lia].
  destruct (getApiSyncSocket w) as [[sock|]|e]; cbn;
    try (repeat split; lia).
  destruct (socketSessionRPC sock sessionId (rpcName command)
              (orEmptyParams params)) as [[r|]|e]; cbn;
    try (repeat split; lia).
  destruct (truthyFlag (success r)); cbn; repeat split; lia.
Qed.

Lemma dispatch_is_bracketed_witness :
  let t := fst (executeCommand
                  (worldWith (Normal (Some (socketAnswering
                                              (Normal Nullish)))))
                  (js "s1") modelCommand None) in
  exists middle,
    t = SetIsExecuting true :: middle ++ [SetIsExecuting false]
    /\ forallb (fun e => negb (setsIsExecuting e)) middle = true
    /\ (List.length (remoteCalls t) <= 1)%nat
    /\ (List.length (alerts t) <= 1)%nat.
Proof.
  exact (@dispatch_is_bracketed
           (worldWith (Normal (Some (socketAnswering (Normal Nullish)))))
           (js "s1") modelCommand None eq_refl).
Defined.

End DispatchFacts.

(* ================================================================== *)
(** * More on the palette: keys and rows *)
(* ================================================================== *)

Section PaletteViewFacts.

Import Palette.

(** X17: on an index in range the two arrow keys undo each other:
    ArrowDown and then ArrowUp on the index it handed out gives the
    index back, and so does ArrowUp and then ArrowDown. *)
Theorem arrow_keys_are_inverse :
  forall (props : CommandPaletteProps) (i : Z),
    visible props = true ->
    selectedIndex props = Num i ->
    validIndex (items props) (Num i) = true ->
    (exists j,
        handleKeyPress props (js "ArrowDown")
        = [PreventDefault; OnSelect (Num j)]
        /\ handleKeyPress (withSelectedIndex props (Num j)) (js "ArrowUp")
           = [PreventDefault; OnSelect (Num i)])
    /\ (exists k,
        handleKeyPress props (js "ArrowUp")
        = [PreventDefault; OnSelect (Num k)]
        /\ handleKeyPress (withSelectedIndex props (Num k)) (js "ArrowDown")
           = [PreventDefault; OnSelect (Num i)]).
Proof.
  intros props i Hv Hs Hi.
  pose proof Hi as Hr. unfold validIndex in Hr.
  apply andb_true_iff in Hr as [H0 Hn].
  apply Z.leb_le in H0. apply Z.ltb_lt in Hn.
  destruct (arrowDown_in_range props Hv Hs Hi) as [Ed Vd].
  destruct (arrowUp_in_range props Hv Hs Hi) as [Eu Vu].
  split.
  - clear Eu Vu. eexists. split; [exact Ed|]. clear Ed.
    destruct (arrowUp_in_range (withSelectedIndex props _) Hv eq_refl Vd)
      as [E _].
    rewrite E. cbn [items withSelectedIndex]. clear E Vd. do 4 f_equal.
    destruct (Z.eqb_spec i (Z.of_nat (List.length (items props)) - 1)).
    + rewrite Z.eqb_refl. lia.
    + destruct (Z.eqb_spec (i + 1) 0); lia.
  - clear Ed Vd. eexists. split; [exact Eu|]. clear Eu.
    destruct (arrowDown_in_range (withSelectedIndex props _) Hv eq_refl Vu)
      as [E _].
    rewrite E. cbn [items withSelectedIndex]. clear E Vu. do 4 f_equal.
    destruct (Z.eqb_spec i 0).
    + rewrite Z.eqb_refl. lia.
    + destruct (Z.eqb_spec (i - 1)
                  (Z.of_nat (List.length (items props)) - 1)); lia.
Qed.

Lemma arrow_keys_are_inverse_witness :
  (exists j,
      handleKeyPress (paletteOver threeItems (Num 2)) (js "ArrowDown")
      = [PreventDefault; OnSelect (Num j)]
      /\ handleKeyPress
           (withSelectedIndex (paletteOver threeItems (Num 2)) (Num j))
           (js "ArrowUp")
         = [PreventDefault; OnSelect (Num 2)])
  /\ (exists k,
      handleKeyPress (paletteOver threeItems (Num 2)) (js "ArrowUp")
      = [PreventDefault; OnSelect (Num k)]
      /\ handleKeyPress
           (withSelectedIndex (paletteOver threeItems (Num 2)) (Num k))
           (js "ArrowDown")
         = [PreventDefault; OnSelect (Num 2)]).
Proof.
  exact (@arrow_keys_are_inverse (paletteOver threeItems (Num 2)) 2%Z
           eq_refl eq_refl eq_refl).
Defined.

(** Every outcome of the key handler, by key. *)
Lemma handleKeyPress_cases (props : CommandPaletteProps) (key : jsstring) :
  handleKeyPress props key = []
  \/ (visible props = true /\ key = js "Escape"
      /\ handleKeyPress props key = [OnClose])
  \/ (visible props = true /\ (key = js "ArrowUp" \/ key = js "ArrowDown")
      /\ exists i, handleKeyPress props key = [PreventDefault; OnSelect i])
  \/ (visible props = true /\ key = js "Enter" /\ items props <> []
      /\ handleKeyPress props key
         = [PreventDefault; HapticsLight; OnSelect (selectedIndex props)]).
Proof.
  unfold handleKeyPress.
  destruct (visible props); [|now left]. cbn [negb].
  destruct (strictEquals key (js "Escape")) eqn:E1.
  { apply strictEquals_eq in E1. right; left. auto. }
  destruct (strictEquals key (js "ArrowUp")) eqn:E2.
  { apply strictEquals_eq in E2. right; right; left. eauto. }
  destruct (strictEquals key (js "ArrowDown")) eqn:E3.
  { apply strictEquals_eq in E3. right; right; left. eauto. }
  destruct (strictEquals key (js "Enter")) eqn:E4; [|now left].
  apply strictEquals_eq in E4.
  destruct (items props) as [|item rest]; [now left|].
  right; right; right. repeat split; auto. discriminate.
Qed.

(** X18: the key handler reacts to four keys and only while the palette
    is visible. It closes on Escape alone, gives haptic feedback on
    Enter alone, calls [onSelect] for the two arrows and Enter alone,
    and does nothing at all for any other key or while hidden. *)
Theorem key_handler_reacts_to_four_keys :
  forall (props : CommandPaletteProps) (key : jsstring),
    (visible props = false -> handleKeyPress props key = [])
    /\ (key <> js "Escape" -> key <> js "ArrowUp" ->
        key <> js "ArrowDown" -> key <> js "Enter" ->
        handleKeyPress props key = [])
    /\ (In OnClose (handleKeyPress props key) -> key = js "Escape")
    /\ (In HapticsLight (handleKeyPress props key) -> key = js "Enter")
    /\ (forall i, In (OnSelect i) (handleKeyPress props key) ->
        key = js "ArrowUp" \/ key = js "ArrowDown" \/ key = js "Enter").
Proof.
  intros props key.
  destruct (handleKeyPress_cases props key)
    as [E | [[Hv [Hk E]] | [[Hv [[Hk | Hk] [i E]]] | [Hv [Hk [Hi E]]]]]];
    rewrite E; (split; [|split; [|split; [|split]]]); in_cases.
Qed.

Lemma mapWithIndex_selected (props : CommandPaletteProps)
    (l : list CommandItem) (k : Z) :
  selectedRows (mapWithIndex (PaletteView.rowOf props) k l)
  = match selectedIndex props with
    | Num z =>
        if (k <=? z)%Z && (z <? k + Z.of_nat (List.length l))%Z
        then 1%nat else 0%nat
    | NaN => 0%nat
    end.
Proof.
  unfold selectedRows. revert k.
  induction l as [|item l IH]; intros k.
  - cbn. destruct (selectedIndex props) as [z|]; [|reflexivity].
    destruct (Z.leb_spec k z), (Z.ltb_spec z (k + 0)); cbn; try reflexivity.
    lia.
  - cbn [mapWithIndex filter PaletteView.isSelected PaletteView.rowOf].
    specialize (IH (k + 1)%Z).
    destruct (selectedIndex props) as [z|]; cbn [numStrictEquals].
    + change (Z.of_nat (List.length (item :: l)))
        with (Z.of_nat (S (List.length l))).
      rewrite Nat2Z.inj_succ.
      destruct (Z.eqb_spec k z) as [->|Hne]; cbn [List.length]; rewrite IH;
        repeat match goal with
               | |- context [Z.leb ?a ?b] => destruct (Z.leb_spec a b)
               | |- context [Z.ltb ?a ?b] => destruct (Z.ltb_spec a b)
               end; cbn; try reflexivity; lia.
    + exact IH.
Qed.

Lemma mapWithIndex_presses (props : CommandPaletteProps)
    (l : list CommandItem) (k : Z) :
  Forall (fun row =>
            exists z, PaletteView.onPress row
                      = [HapticsLight; OnSelect (Num z)]
                      /\ (k <= z < k + Z.of_nat (List.length l))%Z)
         (mapWithIndex (PaletteView.rowOf props) k l).
Proof.
  revert k. induction l as [|item l IH]; intros k; cbn [mapWithIndex].
  - constructor.
  - constructor.
    + exists k. split; [reflexivity|]. cbn [List.length]. lia.
    + eapply Forall_impl; [|apply (IH (k + 1)%Z)].
      intros row [z [E Hz]]. exists z. split; [exact E|].
      cbn [List.length]. lia.
Qed.

Lemma mapWithIndex_keys (props : CommandPaletteProps)
    (l : list CommandItem) (k : Z) :
  map PaletteView.rowKey (mapWithIndex (PaletteView.rowOf props) k l)
  = map Palette.id l.
Proof.
  revert k. induction l as [|item l IH]; intros k; cbn; [reflexivity|].
  now rewrite IH.
Qed.

(** X19: the rows the palette draws. One row per item, keyed by the
    item ids in order; exactly one row is drawn as selected when the
    palette is visible and [selectedIndex] designates an item, and none
    otherwise (an index out of range, or [NaN], highlights nothing);
    and a press on a row always hands [onSelect] an index that
    designates an item. *)
Theorem palette_rows :
  forall (props : CommandPaletteProps) (maxHeight : option Z)
         (emptyMessage : option jsstring),
    let rows :=
      PaletteView.rowsOf (PaletteView.render props maxHeight emptyMessage) in
    selectedRows rows
    = (if visible props && validIndex (items props) (selectedIndex props)
       then 1%nat else 0%nat)
    /\ (visible props = true ->
        map PaletteView.rowKey rows = map Palette.id (items props))
    /\ (visible props = false -> rows = [])
    /\ Forall (fun row =>
                 exists i, PaletteView.onPress row
                           = [HapticsLight; OnSelect i]
                           /\ validIndex (items props) i = true)
              rows.
Proof.
  intros props maxHeight emptyMessage rows. subst rows.
  unfold PaletteView.render.
  destruct (visible props); cbn [negb andb PaletteView.rowsOf].
  2:{ repeat split; try reflexivity; try discriminate. constructor. }
  destruct (items props) as [|item rest] eqn:Hitems.
  { change (numStrictEquals (arrayLength (@nil CommandItem)) (Num 0))
      with true.
    cbn [PaletteView.rowsOf].
    assert (Hnone : validIndex (@nil CommandItem) (selectedIndex props)
                    = false).
    { destruct (selectedIndex props) as [z|]; [|reflexivity].
      unfold validIndex.
      change (Z.of_nat (List.length (@nil CommandItem))) with 0%Z.
      destruct (Z.leb_spec 0 z), (Z.ltb_spec z 0); try reflexivity. lia. }
    rewrite Hnone. split; [reflexivity|]. split; [reflexivity|].
    split; [discriminate | constructor]. }
  change (numStrictEquals (arrayLength (item :: rest)) (Num 0)) with false.
  cbn [PaletteView.rowsOf]. split; [|split; [|split]].
  - rewrite mapWithIndex_selected. unfold validIndex.
    destruct (selectedIndex props); reflexivity.
  - intros _. apply mapWithIndex_keys.
  - discriminate.
  - eapply Forall_impl; [|apply mapWithIndex_presses].
    intros row [z [E Hz]]. exists (Num z). split; [exact E|].
    unfold validIndex. apply andb_true_iff.
    split; [apply Z.leb_le | apply Z.ltb_lt]; lia.
Qed.

End PaletteViewFacts.

(* ================================================================== *)
(** * The model selector *)
(* ================================================================== *)

Section ModelSelectorFacts.

Import ModelSelector.

(** X20: what can be pressed in the model selector, and what a press
    calls. Nothing while it is hidden. While it is visible the backdrop
    can always be pressed and calls [onClose] only; while it is loading
    it is the only thing that can be pressed, whatever models there are.
    Otherwise each model has a row after the backdrop, in order, whose
    press gives haptic feedback and hands [onSelect] the id of that
    model. So [onSelect] only ever receives the id of a listed model. *)
Theorem model_selector_presses :
  forall props : ModelSelectorModalProps,
    (visible props = false -> pressable (render props) = [])
    /\ (visible props = true -> truthyFlag (isLoading props) = true ->
        pressable (render props) = [[OnClose]])
    /\ (visible props = true -> truthyFlag (isLoading props) = false ->
        pressable (render props)
        = [OnClose]
          :: map (fun m => [HapticsLight; OnSelect (id m)]) (models props))
    /\ (forall calls modelId,
          In calls (pressable (render props)) ->
          In (OnSelect modelId) calls ->
          calls = [HapticsLight; OnSelect modelId]
          /\ exists m, In m (models props) /\ id m = modelId).
Proof.
  intros props.
  assert (Hrows : forall calls modelId,
             In calls ([OnClose]
                       :: map (fun m => [HapticsLight; OnSelect (id m)])
                              (models props)) ->
             In (OnSelect modelId) calls ->
             calls = [HapticsLight; OnSelect modelId]
             /\ exists m, In m (models props) /\ id m = modelId).
  { intros calls modelId [<- | Hc] Hsel; [in_cases|].
    apply in_map_iff in Hc as [m [<- Hin]].
    destruct Hsel as [H | [H | []]]; [discriminate H|].
    inversion H; subst. split; [reflexivity | eauto]. }
  unfold render.
  destruct (visible props); cbn [negb].
  2:{ split; [reflexivity|]. split; [discriminate|]. split; [discriminate|].
      intros calls modelId []. }
  destruct (truthyFlag (isLoading props)).
  { split; [discriminate|]. split; [reflexivity|]. split; [discriminate|].
    intros calls modelId [<- | []] Hsel. in_cases. }
  destruct (models props) as [|m rest] eqn:Hm.
  { split; [discriminate|]. split; [discriminate|]. split; [reflexivity|].
    intros calls modelId [<- | []] Hsel. in_cases. }
  change (numStrictEquals (arrayLength (m :: rest)) (Num 0)) with false.
  cbn [pressable]. rewrite map_map.
  split; [discriminate|]. split; [discriminate|]. split; [reflexivity|].
  exact Hrows.
Qed.

End ModelSelectorFacts.
